(** * The backend-plugin manager (pkg/plugins/manager/managerv2.go)

    A shallow embedding of [PluginManagerV2]: the plugin registry behind
    its reader/writer mutex, the request dispatcher ([QueryData],
    [CollectMetrics], [CheckHealth]), the crash-restart supervision loop
    ([restartKilledProcess]), the resource stream bridge ([flushStream])
    and [Uninstall] with its path-containment check.

    Conventions.
    - A Go result pair [(T, error)] is a pair [option T * option error];
      [None] is Go's [nil].
    - Methods of the manager run in the monad [M]: they thread the
      manager and either return or block for ever on [pluginsMu].
    - [m.log.Debug] calls of the manager leave the modelled state
      untouched and are not represented; the plugin logger, whose
      output some properties mention, is. *)

From stdpp Require Import gmap strings list fin_maps.
From Stdlib Require Import ZArith Ascii.

Local Open Scope string_scope.

(** ** Errors *)

(** Go error values.  The sentinels are the package-level variables of
    [backendplugin], [plugins], [io] and [context]; [errors_New] is
    [errors.New] / [fmt.Errorf] without [%w]; [Wrapped msg cause] is an
    error built with [%w], whose [Unwrap] is [cause]. *)
Inductive error : Type :=
| ErrPluginNotRegistered
| ErrHealthCheckFailed
| ErrPluginUnavailable
| ErrMethodNotImplemented
| ErrInstallCorePlugin
| ErrUninstallCorePlugin
| ErrUninstallOutsideOfPluginDir
| ErrPluginNotInstalled
| io_EOF
| context_Canceled
| context_DeadlineExceeded
| errors_New (msg : string)
| Wrapped (msg : string) (cause : error).

#[global] Instance error_eq_dec : EqDecision error.
Proof. solve_decision. Defined.

(** [errors.Is(err, target)]: [err] or an error in its [Unwrap] chain is
    [target]. *)
Fixpoint errors_Is (err target : error) : bool :=
  if decide (err = target) then true
  else match err with
       | Wrapped _ cause => errors_Is cause target
       | _ => false
       end.

(** Modelled from the spec: [errutil.Wrap] (pkg/util/errutil, not among
    the sources) "wraps" an error under a message; the wrapped error
    stays reachable through [errors_Is]. *)
Definition errutil_Wrap (message : string) (err : error) : error :=
  Wrapped message err.

(** ** Plugin entities *)

Inductive PluginClass : Type := Core | Bundled | External.

#[global] Instance PluginClass_eq_dec : EqDecision PluginClass.
Proof. solve_decision. Defined.

Record DataSourceInstanceSettings : Type := {
  URL : string;
  JSONData : string
}.

Record PluginContext : Type := {
  PluginID : string;
  DataSourceInstanceSettings_ : option DataSourceInstanceSettings
}.

Record QueryDataRequest : Type := {
  req_PluginContext : PluginContext;
  Queries : list string
}.

(** [backend.QueryDataResponse]: result entries by query ref id. *)
Record QueryDataResponse : Type := {
  Responses : gmap string string
}.

Record CollectMetricsResult : Type := {
  PrometheusMetrics : string
}.

Record CheckHealthResult : Type := {
  Status : Z;
  Message : string
}.

Definition http_StatusForbidden : Z := 403.

(** Modelled from the spec: [plugins.PluginV2] (pkg/plugins, not among the
    sources).  The data model gives it an id, a class, the directory it
    was loaded from, the [managed] and [backend] flags and the one-way
    [decommissioned] flag; the [client_] fields stand for the
    out-of-process backend the entity forwards the protocol calls to. *)
Record PluginV2 : Type := {
  ID : string;
  Class : PluginClass;
  PluginDir : string;
  Managed : bool;
  Backend : bool;
  decommissioned : bool;
  client_QueryData : QueryDataRequest -> option QueryDataResponse * option error;
  client_CollectMetrics : option CollectMetricsResult * option error;
  client_CheckHealth : PluginContext -> option CheckHealthResult * option error;
  client_Exited : bool;
  client_Start : option error;
  client_Stop : option error
}.

Definition IsDecommissioned (p : PluginV2) : bool := decommissioned p.

Definition IsExternalPlugin (p : PluginV2) : bool :=
  bool_decide (Class p = External).

Definition setDecommissioned (p : PluginV2) : PluginV2 :=
  {| ID := ID p; Class := Class p; PluginDir := PluginDir p;
     Managed := Managed p; Backend := Backend p;
     decommissioned := true;
     client_QueryData := client_QueryData p;
     client_CollectMetrics := client_CollectMetrics p;
     client_CheckHealth := client_CheckHealth p;
     client_Exited := client_Exited p;
     client_Start := client_Start p;
     client_Stop := client_Stop p |}.

(** ** The manager and its mutex *)

(** [sync.RWMutex]: one writer or any number of readers.  It is not
    reentrant. *)
Record RWMutex : Type := {
  writer : bool;
  readers : nat
}.

Definition freeMutex : RWMutex := {| writer := false; readers := 0 |}.

Record http_Request : Type := {
  Method : string;
  RawQuery : string
}.

(** [PluginManagerV2].  [Validate] is the injected
    [PluginRequestValidator] (data-source URL, HTTP request or nil),
    [removedDirs] the directories the plugin installer was asked to
    delete from disk, most recent first, and [installer_Uninstall] the
    error the installer answers with. *)
Record PluginManagerV2 : Type := {
  Cfg_PluginsPath : string;
  Validate : string -> option http_Request -> option error;
  installer_Uninstall : string -> option error;
  plugins : gmap string PluginV2;
  pluginsMu : RWMutex;
  removedDirs : list string
}.

Definition set_pluginsMu (mu : RWMutex) (m : PluginManagerV2) : PluginManagerV2 :=
  {| Cfg_PluginsPath := Cfg_PluginsPath m; Validate := Validate m;
     installer_Uninstall := installer_Uninstall m;
     plugins := plugins m; pluginsMu := mu; removedDirs := removedDirs m |}.

Definition set_plugins (ps : gmap string PluginV2) (m : PluginManagerV2) : PluginManagerV2 :=
  {| Cfg_PluginsPath := Cfg_PluginsPath m; Validate := Validate m;
     installer_Uninstall := installer_Uninstall m;
     plugins := ps; pluginsMu := pluginsMu m; removedDirs := removedDirs m |}.

Definition set_removedDirs (ds : list string) (m : PluginManagerV2) : PluginManagerV2 :=
  {| Cfg_PluginsPath := Cfg_PluginsPath m; Validate := Validate m;
     installer_Uninstall := installer_Uninstall m;
     plugins := plugins m; pluginsMu := pluginsMu m; removedDirs := ds |}.

(** The outcome of a method call: it returns [a] and leaves the manager
    as [m], or the calling goroutine never gets [pluginsMu]. *)
Inductive outcome (A : Type) : Type :=
| Ret (a : A) (m : PluginManagerV2)
| Blocked (m : PluginManagerV2).

Arguments Ret {A} a m.
Arguments Blocked {A} m.

Definition M (A : Type) : Type := PluginManagerV2 -> outcome A.

Definition ret {A} (a : A) : M A := fun m => Ret a m.

Definition bind {A B} (c : M A) (k : A -> M B) : M B :=
  fun m => match c m with
           | Ret a m' => k a m'
           | Blocked m' => Blocked m'
           end.

Notation "x <- c ;; k" := (bind c (fun x => k))
  (at level 90, c at level 80, right associativity).
Notation "c ;;; k" := (bind c (fun _ => k))
  (at level 90, right associativity).

Definition gets {A} (f : PluginManagerV2 -> A) : M A := fun m => Ret (f m) m.
Definition modify (f : PluginManagerV2 -> PluginManagerV2) : M unit :=
  fun m => Ret tt (f m).

Definition Lock : M unit := fun m =>
  if writer (pluginsMu m) || negb (readers (pluginsMu m) =? 0)%nat
  then Blocked m
  else Ret tt (set_pluginsMu {| writer := true; readers := 0 |} m).

Definition Unlock : M unit :=
  modify (fun m => set_pluginsMu {| writer := false; readers := readers (pluginsMu m) |} m).

Definition RLock : M unit := fun m =>
  if writer (pluginsMu m)
  then Blocked m
  else Ret tt (set_pluginsMu {| writer := false; readers := S (readers (pluginsMu m)) |} m).

Definition RUnlock : M unit :=
  modify (fun m => set_pluginsMu {| writer := writer (pluginsMu m);
                                    readers := pred (readers (pluginsMu m)) |} m).

(** [m.pluginsMu.Lock(); defer m.pluginsMu.Unlock(); body]. *)
Definition withLock {A} (body : M A) : M A :=
  Lock ;;; (r <- body ;; (Unlock ;;; ret r)).

(** ** The registry *)

Definition Plugin (pluginID : string) : M (option PluginV2) :=
  RLock ;;;
  (p <- gets (fun m => plugins m !! pluginID) ;;
  (RUnlock ;;;
  ret (match p with
       | Some p' => if IsDecommissioned p' then None else Some p'
       | None => None
       end))).

Definition Register (p : PluginV2) : M (option error) :=
  withLock
    (let pluginID := ID p in
     ps <- gets plugins ;;
     match ps !! pluginID with
     | Some _ => ret (Some (errors_New ("plugin " ++ pluginID ++ " already registered")))
     | None => modify (set_plugins (<[pluginID := p]> ps)) ;;; ret None
     end).

Definition IsRegistered (pluginID : string) : M bool :=
  p <- Plugin pluginID ;;
  match p with
  | None => ret false
  | Some p' => ret (negb (IsDecommissioned p'))
  end.

Definition unregister (plugin : PluginV2) : M (option error) :=
  withLock (modify (fun m => set_plugins (delete (ID plugin) (plugins m)) m) ;;; ret None).

(** Modelled from the spec: [PluginV2.Decommission] (pkg/plugins, not
    among the sources) sets the one-way [decommissioned] flag of the
    entity, which the registry shares with every holder of the pointer. *)
Definition Decommission (p : PluginV2) : M (option error) :=
  modify (fun m => set_plugins (<[ID p := setDecommissioned p]> (plugins m)) m) ;;;
  ret None.

(** Modelled from the spec: [PluginV2.Stop] (pkg/plugins, not among the
    sources) stops the backend process and reports its error. *)
Definition Stop (p : PluginV2) : M (option error) := ret (client_Stop p).

Definition UnregisterAndStop (pluginID : string) : M (option error) :=
  withLock
    (p <- Plugin pluginID ;;
     match p with
     | None => ret (Some (errors_New ("plugin " ++ pluginID ++ " is not registered")))
     | Some p' =>
         err <- Decommission p' ;;
         match err with
         | Some e => ret (Some e)
         | None =>
             err <- Stop p' ;;
             match err with
             | Some e => ret (Some e)
             | None =>
                 modify (fun m => set_plugins (delete pluginID (plugins m)) m) ;;;
                 ret None
             end
         end
     end).

(** ** The request dispatcher *)

(** Modelled from the spec: the [instrumentation.Instrument...] helpers
    (pkg/plugins/backendplugin/instrumentation, not among the sources)
    invoke the closure "with instrumentation" and hand its error back. *)
Definition Instrument {A} (pluginID : string) (fn : unit -> A * option error)
  : A * option error := fn tt.

Definition emptyQueryDataResponse : QueryDataResponse := {| Responses := ∅ |}.

Definition QueryData (req : QueryDataRequest)
  : M (option QueryDataResponse * option error) :=
  plugin <- Plugin (PluginID (req_PluginContext req)) ;;
  match plugin with
  | None => ret (Some emptyQueryDataResponse, None)
  | Some plugin' =>
      let '(resp, err) :=
        Instrument (PluginID (req_PluginContext req))
                   (fun _ => client_QueryData plugin' req) in
      match err with
      | Some e =>
          if errors_Is e ErrMethodNotImplemented then ret (None, Some e)
          else if errors_Is e ErrPluginUnavailable then ret (None, Some e)
          else ret (None, Some (errutil_Wrap "failed to query data" e))
      | None => ret (resp, None)
      end
  end.

Definition CollectMetrics (pluginID : string)
  : M (option CollectMetricsResult * option error) :=
  p <- Plugin pluginID ;;
  match p with
  | None => ret (None, Some ErrPluginNotRegistered)
  | Some p' =>
      let '(resp, err) := Instrument (ID p') (fun _ => client_CollectMetrics p') in
      match err with
      | Some e => ret (None, Some e)
      | None => ret (resp, None)
      end
  end.

Definition accessDenied : CheckHealthResult :=
  {| Status := http_StatusForbidden; Message := "Access denied" |}.

Definition CheckHealth (pluginContext : PluginContext)
  : M (option CheckHealthResult * option error) :=
  let dsURL := match DataSourceInstanceSettings_ pluginContext with
               | Some dis => URL dis
               | None => ""
               end in
  err <- gets (fun m => Validate m dsURL None) ;;
  match err with
  | Some _ => ret (Some accessDenied, None)
  | None =>
      p <- Plugin (PluginID pluginContext) ;;
      match p with
      | None => ret (None, Some ErrPluginNotRegistered)
      | Some p' =>
          let '(resp, err) :=
            Instrument (ID p') (fun _ => client_CheckHealth p' pluginContext) in
          match err with
          | Some e =>
              if errors_Is e ErrMethodNotImplemented then ret (None, Some e)
              else if errors_Is e ErrPluginUnavailable then ret (None, Some e)
              else ret (None, Some (errutil_Wrap "failed to check plugin health"
                                                 ErrHealthCheckFailed))
          | None => ret (resp, None)
          end
      end
  end.

(** ** Uninstall *)

Section Uninstall.

(** Go's [filepath.Rel(basepath, targpath)], a function of the standard
    library: the relative path and the error. *)
Variable filepath_Rel : string -> string -> string * option error.

Definition filepath_Separator : string := "/".

(** Modelled from the spec: [pluginInstaller.Uninstall]
    (pkg/plugins/manager/installer, not among the sources) "deletes the
    on-disk files" of the directory it is given. *)
Definition pluginInstaller_Uninstall (pluginDir : string) : M (option error) :=
  modify (fun m => set_removedDirs (pluginDir :: removedDirs m) m) ;;;
  gets (fun m => installer_Uninstall m pluginDir).

Definition Uninstall (pluginID : string) : M (option error) :=
  plugin <- Plugin pluginID ;;
  match plugin with
  | None => ret (Some ErrPluginNotInstalled)
  | Some plugin' =>
      if negb (IsExternalPlugin plugin') then ret (Some ErrUninstallCorePlugin)
      else
        root <- gets Cfg_PluginsPath ;;
        let '(path, err) := filepath_Rel root (PluginDir plugin') in
        if bool_decide (err <> None)
           || String.prefix (".." ++ filepath_Separator) path
        then ret (Some ErrUninstallOutsideOfPluginDir)
        else
          registered <- IsRegistered pluginID ;;
          err <- (if registered then UnregisterAndStop pluginID else ret None) ;;
          match err with
          | Some e => ret (Some e)
          | None =>
              err <- unregister plugin' ;;
              match err with
              | Some e => ret (Some e)
              | None => pluginInstaller_Uninstall (PluginDir plugin')
              end
          end
  end.

End Uninstall.

(** A model of [filepath.Clean] and [filepath.Rel] of the Go standard
    library on Unix ([Separator] is [/], no volume names), used where a
    concrete [filepath_Rel] is needed. *)
Fixpoint strings_Split_slash (s : string) : list string :=
  match s with
  | EmptyString => [EmptyString]
  | String c rest =>
      if Ascii.eqb c "/"%char then EmptyString :: strings_Split_slash rest
      else match strings_Split_slash rest with
           | x :: xs => String c x :: xs
           | [] => [String c EmptyString]
           end
  end.

Definition isRooted (path : string) : bool := String.prefix "/" path.

(** One path element pushed on the cleaned elements so far (last
    element first). *)
Definition cleanStep (rooted : bool) (out : list string) (elem : string) : list string :=
  if bool_decide (elem = "") || bool_decide (elem = ".") then out
  else if bool_decide (elem = "..") then
    match out with
    | top :: out' => if bool_decide (top = "..") then elem :: out else out'
    | [] => if rooted then out else [elem]
    end
  else elem :: out.

Definition unix_Clean (path : string) : string :=
  if bool_decide (path = "") then "."
  else
    let rooted := isRooted path in
    let out := rev (foldl (cleanStep rooted) [] (strings_Split_slash path)) in
    let body := String.concat "/" out in
    if rooted then "/" ++ body
    else if bool_decide (body = "") then "." else body.

(** The elements [Rel] walks over: those of a cleaned path, the root
    counting as one empty element. *)
Definition relElements (cleaned : string) : list string :=
  if bool_decide (cleaned = "") then []
  else if bool_decide (cleaned = "/") then [""]
  else strings_Split_slash cleaned.

Fixpoint dropCommon (base targ : list string) : list string * list string :=
  match base, targ with
  | b :: base', t :: targ' =>
      if bool_decide (b = t) then dropCommon base' targ' else (base, targ)
  | _, _ => (base, targ)
  end.

Definition unix_Rel (basepath targpath : string) : string * option error :=
  let cantMake :=
    ("", Some (errors_New ("Rel: can't make " ++ targpath ++ " relative to " ++ basepath))) in
  let base := unix_Clean basepath in
  let targ := unix_Clean targpath in
  if bool_decide (targ = base) then (".", None)
  else
    let base := if bool_decide (base = ".") then "" else base in
    if negb (Bool.eqb (isRooted base) (isRooted targ)) then cantMake
    else
      match dropCommon (relElements base) (relElements targ) with
      | (b :: bs, t :: ts) =>
          if bool_decide (b = "..") then cantMake
          else (String.concat "/" (replicate (S (length bs)) ".." ++ t :: ts), None)
      | (b :: bs, []) => (String.concat "/" (replicate (S (length bs)) ".."), None)
      | ([], ts) => (String.concat "/" ts, None)
      end.


(** ** The plugin logger *)

Inductive LogLevel : Type := LevelDebug | LevelError.

(** One call of [p.Logger().Debug(msg)] or
    [p.Logger().Error(msg, "error", err)]. *)
Record LogEntry : Type := {
  level : LogLevel;
  msg : string;
  logged : option error
}.

Definition logDebug (text : string) : LogEntry :=
  {| level := LevelDebug; msg := text; logged := None |}.

Definition logError (text : string) (err : error) : LogEntry :=
  {| level := LevelError; msg := text; logged := Some err |}.

(** ** The supervision loop *)

(** What one iteration of the [select] in [restartKilledProcess]
    receives: the context is done and [ctx.Err()] is [err], or the ticker
    fired and the shared plugin entity is in state [p] at that moment. *)
Inductive LoopEvent : Type :=
| ctx_Done (err : option error)
| ticker_C (p : PluginV2).

(** The calls the loop makes on the plugin. *)
Inductive LoopAction : Type :=
| CallLogger (entry : LogEntry)
| CallStart.

Definition Exited (p : PluginV2) : bool := client_Exited p.
Definition Start (p : PluginV2) : option error := client_Start p.

(** [restartKilledProcess events]: the calls made on the plugin, in
    order, and the value returned; [None] when the loop is still
    waiting in [select] after the last event. *)
Fixpoint restartKilledProcess (events : list LoopEvent)
  : list LoopAction * option (option error) :=
  match events with
  | [] => ([], None)
  | ctx_Done err :: _ =>
      match err with
      | Some e =>
          if negb (errors_Is e context_Canceled) then ([], Some (Some e))
          else ([], Some None)
      | None => ([], Some None)
      end
  | ticker_C p :: rest =>
      if IsDecommissioned p then
        ([CallLogger (logDebug "Plugin decommissioned")], Some None)
      else if negb (Exited p) then restartKilledProcess rest
      else
        let '(calls, result) := restartKilledProcess rest in
        match Start p with
        | Some e =>
            (CallLogger (logDebug "Restarting plugin") :: CallStart ::
             CallLogger (logError "Failed to restart plugin" e) :: calls, result)
        | None =>
            (CallLogger (logDebug "Restarting plugin") :: CallStart ::
             CallLogger (logDebug "Plugin restarted") :: calls, result)
        end
  end.

Definition isStart (a : LoopAction) : bool :=
  match a with CallStart => true | CallLogger _ => false end.

(** ** The resource stream bridge *)

(** [http.Header] and the headers of a resource response:
    [map[string][]string]. *)
Abbreviation Header := (gmap string (list string)).

Record CallResourceResponse : Type := {
  resp_Status : Z;
  resp_Headers : option Header;
  resp_Body : string
}.

Definition isLower (c : ascii) : bool :=
  (nat_of_ascii "a" <=? nat_of_ascii c)%nat && (nat_of_ascii c <=? nat_of_ascii "z")%nat.
Definition isUpper (c : ascii) : bool :=
  (nat_of_ascii "A" <=? nat_of_ascii c)%nat && (nat_of_ascii c <=? nat_of_ascii "Z")%nat.
Definition isDigit (c : ascii) : bool :=
  (nat_of_ascii "0" <=? nat_of_ascii c)%nat && (nat_of_ascii c <=? nat_of_ascii "9")%nat.

Definition toLower : nat := nat_of_ascii "a" - nat_of_ascii "A".

(** The token bytes of RFC 7230. *)
Definition validHeaderFieldByte (c : ascii) : bool :=
  isLower c || isUpper c || isDigit c
  || bool_decide (c ∈ String.list_ascii_of_string "!#$%&'*+-.^_`|~").

Fixpoint canonicalize (upper : bool) (a : string) : string :=
  match a with
  | EmptyString => EmptyString
  | String c rest =>
      let c' := if upper && isLower c then ascii_of_nat (nat_of_ascii c - toLower)
                else if negb upper && isUpper c then ascii_of_nat (nat_of_ascii c + toLower)
                else c in
      String c' (canonicalize (Ascii.eqb c' "-") rest)
  end.

(** [textproto.CanonicalMIMEHeaderKey] of the Go standard library: the
    first letter and every letter after a hyphen in upper case, the
    others in lower case; a key with a byte that is no token byte is
    left as it is. *)
Definition CanonicalMIMEHeaderKey (s : string) : string :=
  if forallb validHeaderFieldByte (String.list_ascii_of_string s)
  then canonicalize true s else s.

(** [http.Header.Add] of the Go standard library: the value is appended
    under the canonical form of the key. *)
Definition Header_Add (key value : string) (h : Header) : Header :=
  let k := CanonicalMIMEHeaderKey key in
  <[k := (default [] (h !! k) ++ [value])%list]> h.

Inductive WriterCall : Type :=
| CallWriteHeader (status : Z)
| CallWrite (body : string)
| CallFlush.

(** An [http.ResponseWriter] that records what it is asked to do: its
    header map, the calls made so far, whether it is an [http.Flusher],
    and the errors its next [Write] calls answer with (none left: no
    error). *)
Record ResponseWriter : Type := {
  w_Header : Header;
  w_calls : list WriterCall;
  w_Flusher : bool;
  w_writeErrs : list (option error)
}.

Definition w_setHeader (h : Header) (w : ResponseWriter) : ResponseWriter :=
  {| w_Header := h; w_calls := w_calls w; w_Flusher := w_Flusher w;
     w_writeErrs := w_writeErrs w |}.

Definition w_call (c : WriterCall) (w : ResponseWriter) : ResponseWriter :=
  {| w_Header := w_Header w; w_calls := (w_calls w ++ [c])%list; w_Flusher := w_Flusher w;
     w_writeErrs := w_writeErrs w |}.

Definition w_Write (body : string) (w : ResponseWriter) : option error * ResponseWriter :=
  (match w_writeErrs w with err :: _ => err | [] => None end,
   {| w_Header := w_Header w; w_calls := (w_calls w ++ [CallWrite body])%list;
      w_Flusher := w_Flusher w; w_writeErrs := tail (w_writeErrs w) |}).

(** What a call of [stream.Recv()] hands over: a chunk, or an error
    ([io_EOF] at the end of the stream). *)
Inductive Received : Type :=
| Chunk (resp : CallResourceResponse)
| Failed (err : error).

(** [callResourceResponseStream] as its consumer sees it: what the next
    calls of [Recv] will receive from the channel or the context, and
    the [closed] flag. *)
Record callResourceResponseStream : Type := {
  incoming : list Received;
  closed : bool
}.

(** [Recv]: the next thing received; on a closed and drained channel
    end-of-stream; otherwise it blocks ([None]). *)
Definition Recv (s : callResourceResponseStream)
  : option (Received * callResourceResponseStream) :=
  match incoming s with
  | r :: rest => Some (r, {| incoming := rest; closed := closed s |})
  | [] => if closed s then Some (Failed io_EOF, s) else None
  end.

Definition isFailure (r : Received) : bool :=
  match r with
  | Failed _ => true
  | Chunk _ => false
  end.

(** [Close]: a second call fails.  Closing the channel ends the delivery
    of chunks: what later calls of [Recv] receive is an error of the
    context, if one is due, and then end-of-stream. *)
Definition Close (s : callResourceResponseStream)
  : option error * callResourceResponseStream :=
  if closed s then (Some (errors_New "cannot close a closed stream"), s)
  else (None, {| incoming := List.filter isFailure (incoming s); closed := true |}).

(** The state [flushStream] works on and leaves behind. *)
Record Bridge : Type := {
  stream : callResourceResponseStream;
  w : ResponseWriter;
  pluginLog : list LogEntry
}.

(** The [range resp.Headers] loop: every value of every key but
    [Set-Cookie] is added to the header map of the writer. *)
Definition copyHeaders (headers : list (string * list string)) (h : Header) : Header :=
  foldl (fun h kv =>
           if bool_decide (kv.1 = "Set-Cookie") then h
           else foldl (fun h v => Header_Add kv.1 v h) h kv.2)
        h headers.

(** The first-chunk block: default the content type, copy the headers,
    write the status. *)
Definition writeHead (resp : CallResourceResponse) (headers : Header)
  (wr : ResponseWriter) : ResponseWriter :=
  let headers :=
    match headers !! "Content-Type" with
    | Some _ => headers
    | None => <["Content-Type" := ["application/json"]]> headers
    end in
  w_call (CallWriteHeader (resp_Status resp))
         (w_setHeader (copyHeaders (map_to_list headers) (w_Header wr)) wr).

(** The body of the loop below the two error checks. *)
Definition processChunk (processedStreams : nat) (resp : CallResourceResponse)
  (wr : ResponseWriter) (log : list LogEntry) : ResponseWriter * list LogEntry :=
  let wr := match processedStreams, resp_Headers resp with
            | O, Some headers => writeHead resp headers wr
            | _, _ => wr
            end in
  let '(err, wr) := w_Write (resp_Body resp) wr in
  let log := match err with
             | Some e => (log ++ [logError "Failed to write resource response" e])%list
             | None => log
             end in
  let wr := if w_Flusher wr then w_call CallFlush wr else wr in
  (wr, log).

(** What [flushStream] does once [Recv] has answered [err]. *)
Definition onRecvError (processedStreams : nat) (err : error) (b : Bridge)
  : option error * Bridge :=
  if errors_Is err io_EOF then
    if (processedStreams =? 0)%nat
    then (Some (errors_New "received empty resource response"), b)
    else (None, b)
  else
    if (processedStreams =? 0)%nat
    then (Some (errutil_Wrap "failed to receive response from resource call" err), b)
    else
      let log := (pluginLog b ++ [logError "Failed to receive response from resource call" err])%list in
      let '(cerr, s) := Close (stream b) in
      (cerr, {| stream := s; w := w b; pluginLog := log |}).

(** The [for] loop of [flushStream], by recursion on what is still to be
    received.  [None] as first component: [Recv] blocks for ever. *)
Fixpoint flushStream_loop (processedStreams : nat) (pending : list Received)
  (isClosed : bool) (wr : ResponseWriter) (log : list LogEntry)
  : option (option error) * Bridge :=
  match pending with
  | [] =>
      let b := {| stream := {| incoming := []; closed := isClosed |};
                  w := wr; pluginLog := log |} in
      if isClosed then
        let '(err, b') := onRecvError processedStreams io_EOF b in (Some err, b')
      else (None, b)
  | Failed err :: rest =>
      let b := {| stream := {| incoming := rest; closed := isClosed |};
                  w := wr; pluginLog := log |} in
      let '(err', b') := onRecvError processedStreams err b in (Some err', b')
  | Chunk resp :: rest =>
      let '(wr', log') := processChunk processedStreams resp wr log in
      flushStream_loop (S processedStreams) rest isClosed wr' log'
  end.

Definition flushStream (b : Bridge) : option (option error) * Bridge :=
  flushStream_loop 0 (incoming (stream b)) (closed (stream b)) (w b) (pluginLog b).

(** ** Notions used to state the properties *)

(** The entity a lookup of [pluginID] hands out for registry map [ps]. *)
Definition dispatchable (ps : gmap string PluginV2) (pluginID : string)
  : option PluginV2 :=
  match ps !! pluginID with
  | Some p => if IsDecommissioned p then None else Some p
  | None => None
  end.

(** The two sentinel conditions the dispatcher recognises. *)
Definition isSentinel (e : error) : bool :=
  errors_Is e ErrMethodNotImplemented || errors_Is e ErrPluginUnavailable.

(** The URL [CheckHealth] hands to the validator. *)
Definition dataSourceURL (pluginContext : PluginContext) : string :=
  match DataSourceInstanceSettings_ pluginContext with
  | Some dis => URL dis
  | None => ""
  end.

(** A tick at which the loop finds the process exited. *)
Definition detectedExit (ev : LoopEvent) : bool :=
  match ev with
  | ticker_C p => Exited p
  | ctx_Done _ => false
  end.

(** The loop body run over consecutive chunks, the first of which is
    chunk number [processedStreams]. *)
Fixpoint processChunks (processedStreams : nat) (chunks : list CallResourceResponse)
  (wr : ResponseWriter) (log : list LogEntry) : ResponseWriter * list LogEntry :=
  match chunks with
  | [] => (wr, log)
  | resp :: chunks' =>
      let '(wr', log') := processChunk processedStreams resp wr log in
      processChunks (S processedStreams) chunks' wr' log'
  end.

(** The headers of a first chunk once the content type is defaulted. *)
Definition withContentType (headers : Header) : Header :=
  match headers !! "Content-Type" with
  | Some _ => headers
  | None => <["Content-Type" := ["application/json"]]> headers
  end.

(** The [CallWriteHeader] call a sequence of chunks leads to: one, for a first
    chunk that carries headers. *)
Definition statusCalls (chunks : list CallResourceResponse) : list WriterCall :=
  match chunks with
  | resp :: _ =>
      match resp_Headers resp with
      | Some _ => [CallWriteHeader (resp_Status resp)]
      | None => []
      end
  | [] => []
  end.

(** The calls every chunk leads to: its body is written, then flushed by
    a writer that can. *)
Definition bodyCalls (flusher : bool) (resp : CallResourceResponse) : list WriterCall :=
  CallWrite (resp_Body resp) :: (if flusher then [CallFlush] else []).

(** ** Concrete plugins, managers and streams *)

(** A plugin entity whose backend answers every call with [failure]. *)
Definition pluginOf (id : string) (class : PluginClass) (dir : string)
  (isDecommissioned hasExited : bool) (failure : option error) : PluginV2 :=
  {| ID := id; Class := class; PluginDir := dir;
     Managed := true; Backend := true;
     decommissioned := isDecommissioned;
     client_QueryData := fun _ => (None, failure);
     client_CollectMetrics := (None, failure);
     client_CheckHealth := fun _ => (None, failure);
     client_Exited := hasExited;
     client_Start := failure;
     client_Stop := None |}.

(** An external plugin whose recorded directory is the parent of the
    plugins root. *)
Definition acme : PluginV2 :=
  pluginOf "acme" External "/var/lib/grafana" false false None.

(** An external plugin recorded far outside the plugins root. *)
Definition stray : PluginV2 :=
  pluginOf "stray" External "/etc/cron.d" false false None.

(** A decommissioned entity that is still in the registry map. *)
Definition retired : PluginV2 :=
  pluginOf "retired" External "/var/lib/grafana/plugins/retired" true true None.

(** Live plugins whose backend fails: with a plain error, with a
    sentinel. *)
Definition loki : PluginV2 :=
  pluginOf "loki" External "/var/lib/grafana/plugins/loki" false true
           (Some (errors_New "connection refused")).

Definition tempo : PluginV2 :=
  pluginOf "tempo" External "/var/lib/grafana/plugins/tempo" false false
           (Some ErrPluginUnavailable).

Definition exampleValidate (dsURL : string) (req : option http_Request)
  : option error :=
  if bool_decide (dsURL = "http://169.254.169.254")
  then Some (errors_New "request is not allowed")
  else None.

Definition exampleManager : PluginManagerV2 :=
  {| Cfg_PluginsPath := "/var/lib/grafana/plugins";
     Validate := exampleValidate;
     installer_Uninstall := fun _ => None;
     plugins := <["acme" := acme]> (<["stray" := stray]> (<["retired" := retired]>
                (<["loki" := loki]> (<["tempo" := tempo]> ∅))));
     pluginsMu := freeMutex;
     removedDirs := [] |}.

Definition contextOf (id : string) (dsURL : string) : PluginContext :=
  {| PluginID := id;
     DataSourceInstanceSettings_ := Some {| URL := dsURL; JSONData := "{}" |} |}.

Definition requestFor (id : string) : QueryDataRequest :=
  {| req_PluginContext := contextOf id "http://localhost:3100"; Queries := ["A"] |}.

Definition exampleWriter : ResponseWriter :=
  {| w_Header := ∅; w_calls := []; w_Flusher := true; w_writeErrs := [] |}.

(** A first chunk whose cookie header is spelled in lower case. *)
Definition cookieChunk : CallResourceResponse :=
  {| resp_Status := 200;
     resp_Headers := Some (<["set-cookie" := ["sid=1"]]> ∅);
     resp_Body := "{}" |}.

Definition plainChunk : CallResourceResponse :=
  {| resp_Status := 0; resp_Headers := None; resp_Body := "more" |}.

Definition bridgeOf (received : list Received) : Bridge :=
  {| stream := {| incoming := received; closed := false |};
     w := exampleWriter; pluginLog := [] |}.

(** A plugin that is not in [exampleManager]. *)
Definition mimir : PluginV2 :=
  pluginOf "mimir" External "/var/lib/grafana/plugins/mimir" false false None.

(** Two ticks of a supervision loop: a crashed plugin whose restart fails,
    then a running one. *)
Definition exampleTicks : list LoopEvent := [ticker_C loki; ticker_C tempo].

(** ** The rest of the manager *)

(** [corePluginJSONPaths]: the core plugins that are set up by
    [InitCorePlugin] and not by a scan of the plugin directories. *)
Definition corePluginJSONPaths : gmap string string :=
  <["cloudwatch" := "datasource/cloudwatch/plugin.json"]>
  (<["testdata" := "datasource/testdata/plugin.json"]>
  (<["graphite" := "datasource/graphite/plugin.json"]>
  (<["opentsdb" := "datasource/opentsdb/plugin.json"]>
  (<["grafana-azure-monitor-datasource" :=
       "datasource/grafana-azure-monitor-datasource/plugin.json"]> ∅)))).

(** [IsSupported] ranges over the keys of the map, without the mutex. *)
Definition IsSupported (pluginID : string) : M bool :=
  gets (fun m => existsb (fun entry => bool_decide (entry.1 = pluginID))
                         (map_to_list (plugins m))).

Section PluginTypes.

(** The [Type] field of an entity and the list [plugins.PluginTypes]
    (pkg/plugins, not among the sources). *)
Variable Type_ : PluginV2 -> string.
Variable PluginTypes : list string.

Definition PluginByType (pluginID : string) (pluginType : string)
  : M (option PluginV2) :=
  RLock ;;;
  (p <- gets (fun m => plugins m !! pluginID) ;;
  (RUnlock ;;;
  ret (match p with
       | Some p' =>
           if IsDecommissioned p' || negb (bool_decide (Type_ p' = pluginType))
           then None else Some p'
       | None => None
       end))).

(** [Plugins(pluginTypes...)]: no type given means all of them; the
    entities are collected in the order the map is ranged over. *)
Definition Plugins (pluginTypes : list string) : M (list PluginV2) :=
  let pluginTypes := if bool_decide (pluginTypes = []) then PluginTypes
                     else pluginTypes in
  let requestedTypes : gset string := list_to_set pluginTypes in
  gets (fun m => List.filter (fun p => bool_decide (Type_ p ∈ requestedTypes))
                             (map snd (map_to_list (plugins m)))).

End PluginTypes.

(** The loop of [filterOutDuplicates]: [pluginsByID] holds the ids seen so
    far, [result] the plugins kept so far. *)
Fixpoint filterOutDuplicates_loop (loadedPlugins : list PluginV2)
  (pluginsByID : gset string) (result : list PluginV2) : M (list PluginV2) :=
  match loadedPlugins with
  | [] => ret result
  | scannedPlugin :: rest =>
      if bool_decide (ID scannedPlugin ∈ pluginsByID)
      then filterOutDuplicates_loop rest pluginsByID result
      else
        let pluginsByID := {[ID scannedPlugin]} ∪ pluginsByID in
        existing <- Plugin (ID scannedPlugin) ;;
        match existing with
        | Some _ => filterOutDuplicates_loop rest pluginsByID result
        | None =>
            if bool_decide (is_Some (corePluginJSONPaths !! ID scannedPlugin))
            then filterOutDuplicates_loop rest pluginsByID result
            else filterOutDuplicates_loop rest pluginsByID
                                          (result ++ [scannedPlugin])%list
        end
  end.

Definition filterOutDuplicates (loadedPlugins : list PluginV2) : M (list PluginV2) :=
  filterOutDuplicates_loop loadedPlugins ∅ [].

(** What starting a plugin does: calls on the plugin, and the goroutine
    that runs [restartKilledProcess] for it. *)
Inductive StartAction : Type :=
| OnPlugin (call : LoopAction)
| GoRestartKilledProcess.

(** Modelled from the spec: [PluginV2.IsManaged] (pkg/plugins, not among
    the sources) tells whether the process supervisor owns the life
    cycle of the plugin, the [managed] flag of the data model. *)
Definition IsManaged (p : PluginV2) : bool := Managed p.

Definition startPluginAndRestartKilledProcesses (p : PluginV2)
  : option error * list StartAction :=
  match Start p with
  | Some e => (Some e, [OnPlugin CallStart])
  | None => (None, [OnPlugin CallStart; GoRestartKilledProcess])
  end.

Definition start (p : PluginV2) : list StartAction :=
  if negb (IsManaged p) || negb (Backend p) then []
  else
    let '(err, actions) := startPluginAndRestartKilledProcesses p in
    match err with
    | Some e => (actions ++ [OnPlugin (CallLogger (logError "Failed to start plugin" e))])%list
    | None => actions
    end.

(** [registerAndStart]: the error, and what was started. *)
Definition registerAndStart (plugin : PluginV2) : M (option error * list StartAction) :=
  err <- Register plugin ;;
  match err with
  | Some e => ret (Some e, [])
  | None =>
      registered <- IsRegistered (ID plugin) ;;
      if negb registered
      then ret (Some (errors_New ("plugin " ++ ID plugin ++ " is not registered")), [])
      else ret (None, start plugin)
  end.





(** [handleCallResourceError]: the status, message and error handed to
    [reqCtx.JsonApiErr]. *)
Definition handleCallResourceError (err : error) : Z * string * error :=
  if errors_Is err ErrPluginUnavailable then (503%Z, "Plugin unavailable", err)
  else if errors_Is err ErrMethodNotImplemented then (404%Z, "Not found", err)
  else (500%Z, "Failed to call resource", err).

(** ** Installation *)

(** The errors of [Install]: a plain error, or the struct
    [plugins.DuplicatePluginError]. *)
Inductive InstallError : Type :=
| PlainError (err : error)
| DuplicatePluginError (pluginID : string) (existingPluginDir : string).

Section Installation.

(** The collaborators of the installation manager, none of them among
    the sources: [fs.Exists], the plugin finder, loader and initializer
    (which hands back the initialized entity), the [Info.Version] of an
    entity, the installer's [GetUpdateInfo] (the zip URL and the error)
    and [Install], the constant [grafanaComURL], and [filepath.Rel]. *)
Variable fs_Exists : string -> bool * option error.
Variable PluginFinder_Find : string -> list string * option error.
Variable PluginLoader_LoadAll : list string -> list PluginV2 * option error.
Variable PluginInitializer_Initialize : PluginV2 -> PluginV2 * option error.
Variable Info_Version : PluginV2 -> string.
Variable pluginInstaller_GetUpdateInfo : string -> string -> string -> string * option error.
Variable pluginInstaller_Install : string -> string -> string -> string -> string -> option error.
Variable grafanaComURL : string.
Variable filepath_Rel : string -> string -> string * option error.

(** The [for _, p := range loadedPlugins] loop of [installPlugins]. *)
Fixpoint installEach (loadedPlugins : list PluginV2)
  : M (option error * list (string * StartAction)) :=
  match loadedPlugins with
  | [] => ret (None, [])
  | p :: rest =>
      let '(p', err) := PluginInitializer_Initialize p in
      match err with
      | Some e => ret (Some e, [])
      | None =>
          started <- registerAndStart p' ;;
          match started.1 with
          | Some e => ret (Some e, [])
          | None =>
              others <- installEach rest ;;
              ret (others.1, (map (pair (ID p')) started.2 ++ others.2)%list)
          end
      end
  end.

Definition installPlugins (path : string)
  : M (option error * list (string * StartAction)) :=
  let '(exists_, err) := fs_Exists path in
  match err with
  | Some e => ret (Some e, [])
  | None =>
      if negb exists_
      then ret (Some (errors_New ("aborting install as plugins directory " ++ path
                                    ++ " does not exist")), [])
      else
        let '(pluginJSONPaths, err) := PluginFinder_Find path in
        match err with
        | Some e => ret (Some e, [])
        | None =>
            let '(loadedPlugins, err) := PluginLoader_LoadAll pluginJSONPaths in
            match err with
            | Some e => ret (Some e, [])
            | None =>
                loadedPlugins <- filterOutDuplicates loadedPlugins ;;
                installEach loadedPlugins
            end
        end
  end.

Definition Install (pluginID version : string) : M (option InstallError) :=
  plugin <- Plugin pluginID ;;
  prepared <-
    match plugin with
    | None => ret (inl "")
    | Some plugin' =>
        if negb (IsExternalPlugin plugin') then ret (inr (PlainError ErrInstallCorePlugin))
        else if bool_decide (Info_Version plugin' = version)
        then ret (inr (DuplicatePluginError pluginID (PluginDir plugin')))
        else
          let '(pluginZipURL, err) :=
            pluginInstaller_GetUpdateInfo pluginID version grafanaComURL in
          match err with
          | Some e => ret (inr (PlainError e))
          | None =>
              err <- Uninstall filepath_Rel (ID plugin') ;;
              match err with
              | Some e => ret (inr (PlainError e))
              | None => ret (inl pluginZipURL)
              end
          end
    end ;;
  match prepared with
  | inr failure => ret (Some failure)
  | inl pluginZipURL =>
      root <- gets Cfg_PluginsPath ;;
      match pluginInstaller_Install pluginID version root pluginZipURL grafanaComURL with
      | Some e => ret (Some (PlainError e))
      | None =>
          installed <- installPlugins root ;;
          match installed.1 with
          | Some e => ret (Some (PlainError e))
          | None => ret None
          end
      end
  end.

End Installation.

(** ** Notions used to state further properties *)

(** The manager an outcome leaves behind. *)
Definition stateOf {A} (o : outcome A) : PluginManagerV2 :=
  match o with
  | Ret _ m => m
  | Blocked m => m
  end.

(** [m'] has every registry entry of [m], unchanged, and the same
    directories removed from disk. *)
Definition grownFrom (m m' : PluginManagerV2) : Prop :=
  (forall id p, plugins m !! id = Some p -> plugins m' !! id = Some p)
  /\ removedDirs m' = removedDirs m.

(** An event on which the supervision loop returns. *)
Definition terminal (ev : LoopEvent) : bool :=
  match ev with
  | ctx_Done _ => true
  | ticker_C p => IsDecommissioned p
  end.

(** Concrete entities for the further properties: one already flagged
    decommissioned, one that is not managed, a core one, and one that
    claims a core id. *)
Definition stale : PluginV2 :=
  pluginOf "stale" External "/var/lib/grafana/plugins/stale" true false None.

Definition unmanaged : PluginV2 :=
  {| ID := "unmanaged"; Class := External;
     PluginDir := "/var/lib/grafana/plugins/unmanaged";
     Managed := false; Backend := true; decommissioned := false;
     client_QueryData := fun _ => (None, None);
     client_CollectMetrics := (None, None);
     client_CheckHealth := fun _ => (None, None);
     client_Exited := false; client_Start := None; client_Stop := None |}.

Definition graphite : PluginV2 :=
  pluginOf "graphite" Core "/usr/share/grafana/public/app/plugins/datasource/graphite"
           false false None.

Definition coreManager : PluginManagerV2 :=
  {| Cfg_PluginsPath := "/var/lib/grafana/plugins";
     Validate := exampleValidate;
     installer_Uninstall := fun _ => None;
     plugins := <["graphite" := graphite]> (<["loki" := loki]> ∅);
     pluginsMu := freeMutex;
     removedDirs := [] |}.

(** A computation keeps [I] when it leaves a manager satisfying [I],
    whether it returns or blocks, if it was given one. *)
Definition keeps {A} (I : PluginManagerV2 -> Prop) (c : M A) : Prop :=
  forall m, I m -> I (stateOf (c m)).

(** Concrete collaborators for a scan of the plugins directory: it
    exists, and the loader finds [mimir] twice, the installed [loki], a
    plugin that claims the core id [graphite], and [unmanaged]. *)
Definition exampleExists (path : string) : bool * option error := (true, None).

Definition exampleFind (path : string) : list string * option error :=
  ([path ++ "/mimir/plugin.json"; path ++ "/loki/plugin.json"], None).

Definition exampleLoadAll (pluginJSONPaths : list string)
  : list PluginV2 * option error :=
  ([mimir; mimir; loki;
    pluginOf "graphite" External "/var/lib/grafana/plugins/graphite" false false None;
    unmanaged], None).

Definition exampleInitialize (p : PluginV2) : PluginV2 * option error := (p, None).

Definition exampleVersion (p : PluginV2) : string := "1.0.0".

(** The values a header map holds under a key ([h[key]]: none when the
    key is missing). *)
Definition headerValues (h : Header) (key : string) : list string :=
  default [] (h !! key).

(** A first chunk with a cookie under the canonical key and one other
    header. *)
Definition tracedChunk : CallResourceResponse :=
  {| resp_Status := 201;
     resp_Headers := Some (<["Set-Cookie" := ["sid=1"]]> (<["x-trace" := ["abc"]]> ∅));
     resp_Body := "{}" |}.

(** * Properties *)

Local Open Scope list_scope.

(** ** The registry *)

Lemma set_pluginsMu_same (m : PluginManagerV2) :
  set_pluginsMu (pluginsMu m) m = m.
Proof. destruct m; reflexivity. Qed.

Lemma Plugin_free (pluginID : string) (m : PluginManagerV2) :
  pluginsMu m = freeMutex ->
  Plugin pluginID m = Ret (dispatchable (plugins m) pluginID) m.
Proof.
  intros Hfree. unfold Plugin, bind, RLock, RUnlock, gets, modify, ret.
  rewrite Hfree. cbn.
  destruct m as [root val inst ps mu rm]; cbn in *; subst mu. reflexivity.
Qed.

(** A goroutine that holds [pluginsMu] for writing never gets it for
    reading. *)
Lemma Plugin_under_writer (pluginID : string) (m : PluginManagerV2) :
  writer (pluginsMu m) = true -> Plugin pluginID m = Blocked m.
Proof.
  intros Hw. unfold Plugin, bind, RLock. rewrite Hw. reflexivity.
Qed.

Lemma withLock_free {A} (body : M A) (m : PluginManagerV2) :
  pluginsMu m = freeMutex ->
  withLock body m =
  match body (set_pluginsMu {| writer := true; readers := 0 |} m) with
  | Ret a m' => Ret a (set_pluginsMu {| writer := false; readers := readers (pluginsMu m') |} m')
  | Blocked m' => Blocked m'
  end.
Proof.
  intros Hfree. unfold withLock, bind, Lock, Unlock, modify, ret.
  rewrite Hfree. cbn. destruct (body _); reflexivity.
Qed.

Lemma Register_free (p : PluginV2) (m : PluginManagerV2) :
  pluginsMu m = freeMutex ->
  Register p m =
  match plugins m !! ID p with
  | Some _ => Ret (Some (errors_New ("plugin " +:+ ID p +:+ " already registered"))) m
  | None => Ret None (set_plugins (<[ID p := p]> (plugins m)) m)
  end.
Proof.
  intros Hfree. unfold Register. rewrite withLock_free by assumption.
  unfold bind, gets, modify, ret. cbn.
  destruct m as [root val inst ps mu rm]; cbn in *; subst mu.
  destruct (ps !! ID p); reflexivity.
Qed.

(** C3. [Register(p)] fails with the already-registered error whenever the
    registry map has an entry under [p]'s id, decommissioned or not, and
    leaves the manager as it was; otherwise it inserts [p] and succeeds.
    Registering the same id again right after a successful [Register]
    fails. *)
Theorem Register_unique (m : PluginManagerV2) (p : PluginV2) :
  pluginsMu m = freeMutex ->
  (forall q, plugins m !! ID p = Some q ->
     Register p m
     = Ret (Some (errors_New ("plugin " +:+ ID p +:+ " already registered"))) m)
  /\ (plugins m !! ID p = None ->
      Register p m = Ret None (set_plugins (<[ID p := p]> (plugins m)) m)
      /\ forall p2, ID p2 = ID p ->
           Register p2 (set_plugins (<[ID p := p]> (plugins m)) m)
           = Ret (Some (errors_New ("plugin " +:+ ID p +:+ " already registered")))
                 (set_plugins (<[ID p := p]> (plugins m)) m)).
Proof.
  intros Hfree. split.
  - intros q Hq. rewrite Register_free by assumption. rewrite Hq. reflexivity.
  - intros Hnone. split.
    + rewrite Register_free by assumption. rewrite Hnone. reflexivity.
    + intros p2 Hid. rewrite Register_free by (destruct m; assumption).
      rewrite Hid. cbn. rewrite lookup_insert_eq. reflexivity.
Qed.

(** C4. [Plugin(id)] returns nil exactly when the id is absent from the
    registry map or the stored entity is decommissioned; the flag is read
    from the retrieved entity, so a decommissioned entity is not handed
    out although its map entry is still there; a non-nil result is the
    stored entity, and the lookup leaves the manager as it was. *)
Theorem Plugin_nil_iff (m : PluginManagerV2) (pluginID : string) :
  pluginsMu m = freeMutex ->
  exists r, Plugin pluginID m = Ret r m
    /\ (r = None <->
        plugins m !! pluginID = None
        \/ exists p, plugins m !! pluginID = Some p /\ IsDecommissioned p = true)
    /\ (forall p, r = Some p ->
          plugins m !! pluginID = Some p /\ IsDecommissioned p = false).
Proof.
  intros Hfree. exists (dispatchable (plugins m) pluginID).
  split; [apply Plugin_free; assumption|].
  unfold dispatchable.
  destruct (plugins m !! pluginID) as [p|] eqn:Hp.
  - destruct (IsDecommissioned p) eqn:Hd; split.
    + split; [intros _; right; exists p; auto | reflexivity].
    + intros q Hq. discriminate.
    + split; [discriminate|].
      intros [Hn | (q & Hq & Hdq)]; [discriminate|].
      injection Hq as <-. congruence.
    + intros q Hq. injection Hq as <-. auto.
  - split; [split; auto | intros q Hq; discriminate].
Qed.

(** ** The request dispatcher *)

Lemma QueryData_free (req : QueryDataRequest) (m : PluginManagerV2) :
  pluginsMu m = freeMutex ->
  QueryData req m =
  match dispatchable (plugins m) (PluginID (req_PluginContext req)) with
  | None => Ret (Some emptyQueryDataResponse, None) m
  | Some p =>
      match client_QueryData p req with
      | (_, Some e) =>
          if isSentinel e then Ret (None, Some e) m
          else Ret (None, Some (errutil_Wrap "failed to query data" e)) m
      | (resp, None) => Ret (resp, None) m
      end
  end.
Proof.
  intros Hfree. unfold QueryData, bind. rewrite Plugin_free by assumption.
  destruct (dispatchable _ _) as [p|]; [|reflexivity].
  unfold Instrument, isSentinel.
  destruct (client_QueryData p req) as [resp [e|]]; [|reflexivity].
  destruct (errors_Is e ErrMethodNotImplemented); [reflexivity|].
  destruct (errors_Is e ErrPluginUnavailable); reflexivity.
Qed.

Lemma CollectMetrics_free (pluginID : string) (m : PluginManagerV2) :
  pluginsMu m = freeMutex ->
  CollectMetrics pluginID m =
  match dispatchable (plugins m) pluginID with
  | None => Ret (None, Some ErrPluginNotRegistered) m
  | Some p =>
      match client_CollectMetrics p with
      | (_, Some e) => Ret (None, Some e) m
      | (resp, None) => Ret (resp, None) m
      end
  end.
Proof.
  intros Hfree. unfold CollectMetrics, bind. rewrite Plugin_free by assumption.
  destruct (dispatchable _ _) as [p|]; [|reflexivity].
  unfold Instrument. destruct (client_CollectMetrics p) as [resp [e|]]; reflexivity.
Qed.

Lemma CheckHealth_denied (pluginContext : PluginContext) (m : PluginManagerV2) (e : error) :
  Validate m (dataSourceURL pluginContext) None = Some e ->
  CheckHealth pluginContext m = Ret (Some accessDenied, None) m.
Proof.
  intros Hval. unfold CheckHealth, bind, gets. fold (dataSourceURL pluginContext).
  rewrite Hval. reflexivity.
Qed.

Lemma CheckHealth_allowed (pluginContext : PluginContext) (m : PluginManagerV2) :
  Validate m (dataSourceURL pluginContext) None = None ->
  pluginsMu m = freeMutex ->
  CheckHealth pluginContext m =
  match dispatchable (plugins m) (PluginID pluginContext) with
  | None => Ret (None, Some ErrPluginNotRegistered) m
  | Some p =>
      match client_CheckHealth p pluginContext with
      | (_, Some e) =>
          if isSentinel e then Ret (None, Some e) m
          else Ret (None, Some (errutil_Wrap "failed to check plugin health"
                                             ErrHealthCheckFailed)) m
      | (resp, None) => Ret (resp, None) m
      end
  end.
Proof.
  intros Hval Hfree. unfold CheckHealth, bind, gets.
  fold (dataSourceURL pluginContext). rewrite Hval.
  rewrite Plugin_free by assumption.
  destruct (dispatchable _ _) as [p|]; [|reflexivity].
  unfold Instrument, isSentinel.
  destruct (client_CheckHealth p pluginContext) as [resp [e|]]; [|reflexivity].
  destruct (errors_Is e ErrMethodNotImplemented); [reflexivity|].
  destruct (errors_Is e ErrPluginUnavailable); reflexivity.
Qed.

Lemma dispatchable_decommissioned (ps : gmap string PluginV2) (pluginID : string)
  (p : PluginV2) :
  ps !! pluginID = Some p -> IsDecommissioned p = true ->
  dispatchable ps pluginID = None.
Proof. intros Hp Hd. unfold dispatchable. rewrite Hp, Hd. reflexivity. Qed.

Lemma dispatchable_live (ps : gmap string PluginV2) (pluginID : string)
  (p : PluginV2) :
  ps !! pluginID = Some p -> IsDecommissioned p = false ->
  dispatchable ps pluginID = Some p.
Proof. intros Hp Hd. unfold dispatchable. rewrite Hp, Hd. reflexivity. Qed.

(** C5. When no dispatch-eligible plugin is registered under the id of
    the request, [QueryData] answers the empty response, which has no
    result entry, with a nil error.  For a registered plugin whose
    invocation fails with [e]: an [e] that is [ErrMethodNotImplemented]
    or [ErrPluginUnavailable] is returned as it is, every other [e] is
    returned wrapped. *)
Theorem QueryData_dispatch (m : PluginManagerV2) (req : QueryDataRequest) :
  pluginsMu m = freeMutex ->
  (dispatchable (plugins m) (PluginID (req_PluginContext req)) = None ->
     QueryData req m = Ret (Some emptyQueryDataResponse, None) m
     /\ size (Responses emptyQueryDataResponse) = 0)
  /\ (forall p resp e,
        dispatchable (plugins m) (PluginID (req_PluginContext req)) = Some p ->
        client_QueryData p req = (resp, Some e) ->
        (isSentinel e = true -> QueryData req m = Ret (None, Some e) m)
        /\ (isSentinel e = false ->
            QueryData req m
            = Ret (None, Some (errutil_Wrap "failed to query data" e)) m)).
Proof.
  intros Hfree. split.
  - intros Hnone. rewrite QueryData_free by assumption. rewrite Hnone.
    split; [reflexivity | apply map_size_empty].
  - intros p resp e Hp Hcall.
    rewrite QueryData_free by assumption. rewrite Hp, Hcall.
    split; intros ->; reflexivity.
Qed.

(** C7. When the validator rejects the data-source URL, [CheckHealth]
    returns, with a nil error, a result whose status is 403 and whose
    message is "Access denied".  For a registered plugin, an invocation
    error that is neither sentinel is replaced by [ErrHealthCheckFailed]
    under a fixed message: the returned error is the same whatever the
    cause was. *)
Theorem CheckHealth_outcomes (m : PluginManagerV2) (pluginContext : PluginContext) :
  (forall denial, Validate m (dataSourceURL pluginContext) None = Some denial ->
     exists result,
       CheckHealth pluginContext m = Ret (Some result, None) m
       /\ Status result = 403%Z /\ Message result = "Access denied")
  /\ (forall p resp cause,
        Validate m (dataSourceURL pluginContext) None = None ->
        pluginsMu m = freeMutex ->
        dispatchable (plugins m) (PluginID pluginContext) = Some p ->
        client_CheckHealth p pluginContext = (resp, Some cause) ->
        isSentinel cause = false ->
        CheckHealth pluginContext m
        = Ret (None, Some (Wrapped "failed to check plugin health" ErrHealthCheckFailed)) m).
Proof.
  split.
  - intros denial Hval. exists accessDenied.
    rewrite (CheckHealth_denied _ _ _ Hval). repeat split.
  - intros p resp cause Hval Hfree Hp Hcall Hsent.
    rewrite CheckHealth_allowed by assumption. rewrite Hp, Hcall, Hsent. reflexivity.
Qed.

(** C9. An entity that is still in the registry map but decommissioned is
    dispatched to like an absent one: [QueryData] answers the empty
    response with a nil error, [CollectMetrics] and, once validation has
    passed, [CheckHealth] answer [ErrPluginNotRegistered]; these are the
    answers obtained when the map entry is deleted. *)
Theorem decommissioned_like_absent (m : PluginManagerV2) (p : PluginV2)
  (req : QueryDataRequest) (pluginContext : PluginContext) :
  pluginsMu m = freeMutex ->
  IsDecommissioned p = true ->
  let absent := set_plugins (delete (ID p) (plugins m)) m in
  plugins m !! ID p = Some p ->
  PluginID (req_PluginContext req) = ID p ->
  PluginID pluginContext = ID p ->
  Validate m (dataSourceURL pluginContext) None = None ->
  (QueryData req m = Ret (Some emptyQueryDataResponse, None) m
   /\ QueryData req absent = Ret (Some emptyQueryDataResponse, None) absent)
  /\ (CollectMetrics (ID p) m = Ret (None, Some ErrPluginNotRegistered) m
      /\ CollectMetrics (ID p) absent = Ret (None, Some ErrPluginNotRegistered) absent)
  /\ (CheckHealth pluginContext m = Ret (None, Some ErrPluginNotRegistered) m
      /\ CheckHealth pluginContext absent
         = Ret (None, Some ErrPluginNotRegistered) absent).
Proof.
  intros Hfree Hd absent Hp Hreq Hctx Hval.
  assert (Hgone : dispatchable (plugins m) (ID p) = None)
    by (eapply dispatchable_decommissioned; eassumption).
  assert (Habs : dispatchable (plugins absent) (ID p) = None).
  { unfold dispatchable, absent. cbn. rewrite lookup_delete_eq. reflexivity. }
  assert (Hfree' : pluginsMu absent = freeMutex) by exact Hfree.
  assert (Hval' : Validate absent (dataSourceURL pluginContext) None = None) by exact Hval.
  repeat split.
  - rewrite QueryData_free by assumption. rewrite Hreq, Hgone. reflexivity.
  - rewrite QueryData_free by assumption. rewrite Hreq, Habs. reflexivity.
  - rewrite CollectMetrics_free by assumption. rewrite Hgone. reflexivity.
  - rewrite CollectMetrics_free by assumption. rewrite Habs. reflexivity.
  - rewrite CheckHealth_allowed by assumption. rewrite Hctx, Hgone. reflexivity.
  - rewrite CheckHealth_allowed by assumption. rewrite Hctx, Habs. reflexivity.
Qed.

(** C10. [CheckHealth] validates before it looks the plugin up: when the
    validator rejects the URL the 403 result is returned whatever the
    registry holds, also when no plugin is registered under the id, and
    the error is nil, so never [ErrPluginNotRegistered]. *)
Theorem CheckHealth_validates_first (m : PluginManagerV2)
  (pluginContext : PluginContext) (denial : error) :
  Validate m (dataSourceURL pluginContext) None = Some denial ->
  forall ps : gmap string PluginV2,
    CheckHealth pluginContext (set_plugins ps m)
    = Ret (Some accessDenied, None) (set_plugins ps m)
    /\ (ps !! PluginID pluginContext = None ->
        forall r m', CheckHealth pluginContext (set_plugins ps m) = Ret r m' ->
                     r.2 <> Some ErrPluginNotRegistered).
Proof.
  intros Hval ps.
  assert (H : CheckHealth pluginContext (set_plugins ps m)
              = Ret (Some accessDenied, None) (set_plugins ps m))
    by (apply (CheckHealth_denied _ _ denial); exact Hval).
  split; [exact H|].
  intros _ r m' Hr. rewrite H in Hr. injection Hr as <- <-. discriminate.
Qed.

(** ** The supervision loop *)

(** As long as the loop has not returned, what it does on more events
    is what it does on them alone, after what it did before. *)
Lemma restartKilledProcess_app (pre events : list LoopEvent) :
  (restartKilledProcess pre).2 = None ->
  restartKilledProcess (pre ++ events)
  = ((restartKilledProcess pre).1 ++ (restartKilledProcess events).1,
     (restartKilledProcess events).2).
Proof.
  induction pre as [|ev pre IH]; intros Hpoll.
  - cbn. destruct (restartKilledProcess events); reflexivity.
  - destruct ev as [err|p]; cbn in Hpoll |- *.
    + destruct err as [e|]; [destruct (negb _)|]; discriminate.
    + destruct (IsDecommissioned p); [discriminate|].
      destruct (negb (Exited p)); [apply IH; assumption|].
      destruct (restartKilledProcess pre) as [calls result] eqn:Hpre.
      assert (Hres : result = None)
        by (destruct (Start p); cbn in Hpoll; exact Hpoll).
      rewrite IH by exact Hres. cbn.
      destruct (Start p); reflexivity.
Qed.

Lemma restartKilledProcess_starts (pre : list LoopEvent) :
  (restartKilledProcess pre).2 = None ->
  length (List.filter isStart (restartKilledProcess pre).1)
  = length (List.filter detectedExit pre).
Proof.
  induction pre as [|ev pre IH]; intros Hpoll; [reflexivity|].
  destruct ev as [err|p]; cbn in Hpoll |- *.
  - destruct err as [e|]; [destruct (negb _)|]; discriminate.
  - destruct (IsDecommissioned p); [discriminate|].
    destruct (Exited p) eqn:Hex; cbn in Hpoll |- *.
    + destruct (restartKilledProcess pre) as [calls result] eqn:Hpre.
      assert (Hres : result = None)
        by (destruct (Start p); cbn in Hpoll; exact Hpoll).
      specialize (IH Hres). cbn in IH.
      destruct (Start p); cbn; f_equal; exact IH.
    + apply IH. assumption.
Qed.

(** C6. While the loop is polling (it has not returned on the events so
    far): it has called [Start] once per tick at which the process had
    exited; a tick at which the plugin is decommissioned makes it return
    nil after a debug message and without a [Start] call, whatever
    happens afterwards; a tick at which the process has exited makes it
    call [Start] and go on polling whether [Start] fails (the failure is
    logged) or not; a tick at which the process runs changes nothing; and
    when the context is done it returns nil if [ctx.Err()] is plain
    cancellation, the context error otherwise. *)
Theorem restartKilledProcess_supervision (pre : list LoopEvent) :
  (restartKilledProcess pre).2 = None ->
  length (List.filter isStart (restartKilledProcess pre).1)
  = length (List.filter detectedExit pre)
  /\ (forall p post, IsDecommissioned p = true ->
        restartKilledProcess (pre ++ ticker_C p :: post)
        = ((restartKilledProcess pre).1
             ++ [CallLogger (logDebug "Plugin decommissioned")],
           Some None))
  /\ (forall p post, IsDecommissioned p = false -> Exited p = true ->
        restartKilledProcess (pre ++ ticker_C p :: post)
        = ((restartKilledProcess pre).1
             ++ CallLogger (logDebug "Restarting plugin") :: CallStart
             :: CallLogger (match Start p with
                            | Some e => logError "Failed to restart plugin" e
                            | None => logDebug "Plugin restarted"
                            end)
             :: (restartKilledProcess post).1,
           (restartKilledProcess post).2))
  /\ (forall p post, IsDecommissioned p = false -> Exited p = false ->
        restartKilledProcess (pre ++ ticker_C p :: post)
        = ((restartKilledProcess pre).1 ++ (restartKilledProcess post).1,
           (restartKilledProcess post).2))
  /\ (forall e post, errors_Is e context_Canceled = true ->
        restartKilledProcess (pre ++ ctx_Done (Some e) :: post)
        = ((restartKilledProcess pre).1, Some None))
  /\ (forall e post, errors_Is e context_Canceled = false ->
        restartKilledProcess (pre ++ ctx_Done (Some e) :: post)
        = ((restartKilledProcess pre).1, Some (Some e))).
Proof.
  intros Hpoll.
  split; [apply restartKilledProcess_starts; assumption|].
  repeat split; intros; rewrite restartKilledProcess_app by assumption; cbn.
  - rewrite H. reflexivity.
  - rewrite H, H0. cbn.
    destruct (restartKilledProcess post) as [calls result].
    destruct (Start p); reflexivity.
  - rewrite H, H0. cbn. reflexivity.
  - rewrite H. cbn. rewrite app_nil_r. reflexivity.
  - rewrite H. cbn. rewrite app_nil_r. reflexivity.
Qed.

(** ** The resource stream bridge *)

(** One turn of the loop is one call of [Recv]: the loop blocks when
    [Recv] does, handles the error [Recv] hands over, or processes the
    chunk and goes round again on the stream [Recv] leaves. *)
Lemma flushStream_loop_Recv (n : nat) (s : callResourceResponseStream)
  (wr : ResponseWriter) (log : list LogEntry) :
  flushStream_loop n (incoming s) (closed s) wr log
  = match Recv s with
    | None => (None, {| stream := s; w := wr; pluginLog := log |})
    | Some (Failed err, s') =>
        let '(err', b') :=
          onRecvError n err {| stream := s'; w := wr; pluginLog := log |} in
        (Some err', b')
    | Some (Chunk resp, s') =>
        let '(wr', log') := processChunk n resp wr log in
        flushStream_loop (S n) (incoming s') (closed s') wr' log'
    end.
Proof.
  destruct s as [[|[resp|err] rest] [|]]; reflexivity.
Qed.

Lemma flushStream_loop_chunks (chunks : list CallResourceResponse) :
  forall (n : nat) (rest : list Received) (isClosed : bool)
         (wr : ResponseWriter) (log : list LogEntry),
  flushStream_loop n (map Chunk chunks ++ rest) isClosed wr log
  = flushStream_loop (n + length chunks) rest isClosed
      (processChunks n chunks wr log).1 (processChunks n chunks wr log).2.
Proof.
  induction chunks as [|resp chunks IH]; intros n rest isClosed wr log.
  - cbn. rewrite Nat.add_0_r. reflexivity.
  - cbn. destruct (processChunk n resp wr log) as [wr' log'].
    rewrite IH. rewrite Nat.add_succ_r. reflexivity.
Qed.

Lemma processChunk_flusher (n : nat) (resp : CallResourceResponse)
  (wr : ResponseWriter) (log : list LogEntry) :
  w_Flusher (processChunk n resp wr log).1 = w_Flusher wr.
Proof.
  unfold processChunk, writeHead, w_Write.
  destruct n, (resp_Headers resp); cbn;
    destruct (w_writeErrs wr) as [|[e|] errs]; cbn;
    destruct (w_Flusher wr); reflexivity.
Qed.

(** After the first chunk the loop body only writes the body and
    flushes. *)
Lemma processChunk_later (n : nat) (resp : CallResourceResponse)
  (wr : ResponseWriter) (log : list LogEntry) :
  w_calls (processChunk (S n) resp wr log).1
  = w_calls wr ++ bodyCalls (w_Flusher wr) resp
  /\ w_Header (processChunk (S n) resp wr log).1 = w_Header wr.
Proof.
  unfold processChunk, w_Write, bodyCalls. cbn.
  destruct (w_writeErrs wr) as [|[e|] errs]; cbn; destruct (w_Flusher wr); cbn;
    rewrite <- ?app_assoc; split; reflexivity.
Qed.

Lemma processChunks_later (chunks : list CallResourceResponse) :
  forall (n : nat) (wr : ResponseWriter) (log : list LogEntry),
  w_calls (processChunks (S n) chunks wr log).1
  = w_calls wr ++ flat_map (bodyCalls (w_Flusher wr)) chunks
  /\ w_Header (processChunks (S n) chunks wr log).1 = w_Header wr.
Proof.
  induction chunks as [|resp chunks IH]; intros n wr log.
  - cbn. rewrite app_nil_r. split; reflexivity.
  - cbn [processChunks].
    pose proof (processChunk_later n resp wr log) as [Hc Hh].
    pose proof (processChunk_flusher (S n) resp wr log) as Hf.
    destruct (processChunk (S n) resp wr log) as [wr' log']. cbn in Hc, Hh, Hf.
    destruct (IH (S n) wr' log') as [IHc IHh].
    rewrite IHc, IHh, Hc, Hh, Hf. cbn [flat_map].
    rewrite <- app_assoc. split; reflexivity.
Qed.

(** The calls the writer sees over a whole sequence of chunks: the
    status at most once and before anything else, only for a first chunk
    with headers; then for every chunk, in order, its body and a flush
    if the writer can flush.  The header map is touched only by a first
    chunk with headers. *)
Lemma processChunks_calls (chunks : list CallResourceResponse)
  (wr : ResponseWriter) (log : list LogEntry) :
  w_calls (processChunks 0 chunks wr log).1
  = w_calls wr ++ statusCalls chunks ++ flat_map (bodyCalls (w_Flusher wr)) chunks
  /\ w_Header (processChunks 0 chunks wr log).1
     = match chunks with
       | resp :: _ =>
           match resp_Headers resp with
           | Some headers =>
               copyHeaders (map_to_list (withContentType headers)) (w_Header wr)
           | None => w_Header wr
           end
       | [] => w_Header wr
       end.
Proof.
  destruct chunks as [|resp chunks].
  - cbn. rewrite app_nil_r. split; reflexivity.
  - cbn [processChunks].
    pose proof (processChunk_flusher 0 resp wr log) as Hf.
    assert (Hfirst :
      w_calls (processChunk 0 resp wr log).1
      = w_calls wr ++ statusCalls (resp :: chunks) ++ bodyCalls (w_Flusher wr) resp
      /\ w_Header (processChunk 0 resp wr log).1
         = match resp_Headers resp with
           | Some headers =>
               copyHeaders (map_to_list (withContentType headers)) (w_Header wr)
           | None => w_Header wr
           end).
    { unfold processChunk, writeHead, w_Write, bodyCalls, statusCalls, withContentType.
      destruct (resp_Headers resp); cbn;
        destruct (w_writeErrs wr) as [|[e|] errs]; cbn; destruct (w_Flusher wr); cbn;
        rewrite <- ?app_assoc; split; reflexivity. }
    destruct Hfirst as [Hc Hh].
    destruct (processChunk 0 resp wr log) as [wr' log']. cbn in Hc, Hh, Hf.
    destruct (processChunks_later chunks 0 wr' log') as [Lc Lh].
    rewrite Lc, Lh, Hc, Hh, Hf. cbn [flat_map statusCalls].
    rewrite <- !app_assoc. split; reflexivity.
Qed.

(** C8. A stream that ends before any chunk was processed, be it that
    [Recv] hands over end-of-stream or that the stream is closed and
    drained, makes the drain loop return the "received empty resource
    response" error.  A receive error before any chunk is returned,
    wrapped.  A receive error after at least one chunk is logged and the
    stream is closed; what is returned is the result of [stream.Close()]
    (nil, or the already-closed error), in which the receive error does
    not occur. *)
Theorem flushStream_receive_failures (b : Bridge) :
  (forall e rest,
     incoming (stream b) = Failed e :: rest -> errors_Is e io_EOF = true ->
     flushStream b
     = (Some (Some (errors_New "received empty resource response")),
        {| stream := {| incoming := rest; closed := closed (stream b) |};
           w := w b; pluginLog := pluginLog b |}))
  /\ (incoming (stream b) = [] -> closed (stream b) = true ->
      flushStream b
      = (Some (Some (errors_New "received empty resource response")),
         {| stream := {| incoming := []; closed := true |};
            w := w b; pluginLog := pluginLog b |}))
  /\ (forall e rest,
        incoming (stream b) = Failed e :: rest -> errors_Is e io_EOF = false ->
        flushStream b
        = (Some (Some (Wrapped "failed to receive response from resource call" e)),
           {| stream := {| incoming := rest; closed := closed (stream b) |};
              w := w b; pluginLog := pluginLog b |}))
  /\ (forall resp chunks e rest,
        incoming (stream b) = map Chunk (resp :: chunks) ++ Failed e :: rest ->
        errors_Is e io_EOF = false ->
        flushStream b
        = (Some (if closed (stream b)
                 then Some (errors_New "cannot close a closed stream")
                 else None),
           {| stream := {| incoming := if closed (stream b) then rest
                                       else List.filter isFailure rest;
                           closed := true |};
              w := (processChunks 0 (resp :: chunks) (w b) (pluginLog b)).1;
              pluginLog :=
                (processChunks 0 (resp :: chunks) (w b) (pluginLog b)).2
                ++ [logError "Failed to receive response from resource call" e] |})).
Proof.
  split; [|split; [|split]].
  - intros e rest Hin Heof. unfold flushStream. rewrite Hin. cbn.
    unfold onRecvError. rewrite Heof. reflexivity.
  - intros Hin Hclosed. unfold flushStream. rewrite Hin, Hclosed. reflexivity.
  - intros e rest Hin Heof. unfold flushStream. rewrite Hin. cbn.
    unfold onRecvError. rewrite Heof. reflexivity.
  - intros resp chunks e rest Hin Heof. unfold flushStream. rewrite Hin.
    rewrite flushStream_loop_chunks.
    destruct (processChunks 0 (resp :: chunks) (w b) (pluginLog b)) as [wr' log'].
    cbn. unfold onRecvError. rewrite Heof. cbn. unfold Close. cbn.
    destruct (closed (stream b)); reflexivity.
Qed.

(** End-of-stream handed over by [Recv]: the "empty" error when no chunk
    came before it, nil after some chunks. *)
Lemma flushStream_end_of_stream (b : Bridge) (chunks : list CallResourceResponse)
  (e : error) (rest : list Received) :
  incoming (stream b) = map Chunk chunks ++ Failed e :: rest ->
  errors_Is e io_EOF = true ->
  (flushStream b).1
  = Some (match chunks with
          | [] => Some (errors_New "received empty resource response")
          | _ :: _ => None
          end).
Proof.
  intros Hin Heof. unfold flushStream. rewrite Hin.
  rewrite flushStream_loop_chunks.
  destruct (processChunks 0 chunks (w b) (pluginLog b)) as [wr' log'].
  cbn. unfold onRecvError. rewrite Heof.
  destruct chunks; reflexivity.
Qed.

(** The drain loop returns as soon as the stream delivers an error or
    its end, and then the writer has seen exactly the calls of
    [processChunks_calls]. *)
Lemma flushStream_returns (b : Bridge) (chunks : list CallResourceResponse)
  (e : error) (rest : list Received) :
  incoming (stream b) = map Chunk chunks ++ Failed e :: rest ->
  exists result,
    (flushStream b).1 = Some result
    /\ w (flushStream b).2 = (processChunks 0 chunks (w b) (pluginLog b)).1.
Proof.
  intros Hin. unfold flushStream. rewrite Hin.
  rewrite flushStream_loop_chunks.
  destruct (processChunks 0 chunks (w b) (pluginLog b)) as [wr' log'].
  cbn. unfold onRecvError, Close. cbn.
  destruct (errors_Is e io_EOF), (length chunks =? 0)%nat, (closed (stream b));
    cbn; eexists; split; reflexivity.
Qed.

Lemma copyHeaders_cons (k : string) (vs : list string)
  (headers : list (string * list string)) (h : Header) :
  copyHeaders ((k, vs) :: headers) h
  = copyHeaders headers
      (if bool_decide (k = "Set-Cookie") then h
       else foldl (fun h v => Header_Add k v h) h vs).
Proof. reflexivity. Qed.

Lemma Header_Add_values_other (k key : string) (vs : list string) (h : Header) :
  CanonicalMIMEHeaderKey k <> key ->
  foldl (fun h v => Header_Add k v h) h vs !! key = h !! key.
Proof.
  intros Hcanon. revert h. induction vs as [|v vs IHvs]; intros h; [reflexivity|].
  cbn [foldl]. rewrite IHvs. unfold Header_Add.
  apply lookup_insert_ne. exact Hcanon.
Qed.

(** Cookies under the key [Set-Cookie] itself are not copied: if no other
    key of the plugin's headers is written [Set-Cookie] in canonical
    form, the [Set-Cookie] entry of the writer is left as it was. *)
Lemma copyHeaders_strips_canonical (headers : list (string * list string))
  (h : Header) :
  (forall k vs, (k, vs) ∈ headers -> k <> "Set-Cookie" ->
                CanonicalMIMEHeaderKey k <> "Set-Cookie") ->
  copyHeaders headers h !! "Set-Cookie" = h !! "Set-Cookie".
Proof.
  revert h. induction headers as [|[k vs] headers IH]; intros h Hkeys; [reflexivity|].
  assert (Hrest : forall k' vs', (k', vs') ∈ headers -> k' <> "Set-Cookie" ->
                                 CanonicalMIMEHeaderKey k' <> "Set-Cookie")
    by (intros k' vs' Hin; apply (Hkeys k' vs'); right; exact Hin).
  rewrite copyHeaders_cons. rewrite IH by exact Hrest.
  case_bool_decide as Hk; [reflexivity|].
  apply Header_Add_values_other. apply (Hkeys k vs); [left | exact Hk].
Qed.

(** C2. The drain loop on a one-chunk response whose headers are
    [set-cookie: sid=1]: the key is not equal to [Set-Cookie], so the
    value is added to the writer, whose header map files it under
    [Set-Cookie]; the response the client receives carries the plugin's
    cookie.  (The status is written once, the body written and
    flushed.) *)
Theorem flushStream_forwards_lowercase_cookie :
  flushStream (bridgeOf [Chunk cookieChunk; Failed io_EOF])
  = (Some None,
     {| stream := {| incoming := []; closed := false |};
        w := {| w_Header := <["Set-Cookie" := ["sid=1"]]>
                              (<["Content-Type" := ["application/json"]]> ∅);
                w_calls := [CallWriteHeader 200; CallWrite "{}"; CallFlush];
                w_Flusher := true; w_writeErrs := [] |};
        pluginLog := [] |}).
Proof. vm_compute. reflexivity. Qed.

(** ** Uninstall *)

Lemma dispatchable_Some (ps : gmap string PluginV2) (pluginID : string)
  (p : PluginV2) :
  dispatchable ps pluginID = Some p ->
  ps !! pluginID = Some p /\ IsDecommissioned p = false.
Proof.
  unfold dispatchable. destruct (ps !! pluginID) as [q|]; [|discriminate].
  destruct (IsDecommissioned q) eqn:Hd; [discriminate|].
  intros [= <-]. auto.
Qed.

Lemma IsRegistered_free (pluginID : string) (m : PluginManagerV2) :
  pluginsMu m = freeMutex ->
  IsRegistered pluginID m
  = Ret (bool_decide (is_Some (dispatchable (plugins m) pluginID))) m.
Proof.
  intros Hfree. unfold IsRegistered, bind. rewrite Plugin_free by assumption.
  destruct (dispatchable (plugins m) pluginID) as [p|] eqn:Hp.
  - apply dispatchable_Some in Hp as [_ Hd]. unfold ret. rewrite Hd.
    rewrite bool_decide_eq_true_2 by eauto. reflexivity.
  - rewrite bool_decide_eq_false_2 by (intros [? ?]; discriminate). reflexivity.
Qed.

(** [UnregisterAndStop] takes [pluginsMu] for writing and then, through
    [Plugin], for reading: it never returns. *)
Lemma UnregisterAndStop_blocks (pluginID : string) (m : PluginManagerV2) :
  exists m', UnregisterAndStop pluginID m = Blocked m'.
Proof.
  unfold UnregisterAndStop, withLock, bind at 1, Lock.
  destruct (writer (pluginsMu m) || negb (readers (pluginsMu m) =? 0)%nat).
  - exists m. reflexivity.
  - unfold bind at 1, bind at 1. rewrite Plugin_under_writer by reflexivity.
    eexists. reflexivity.
Qed.

(** The model of [filepath.Rel] on entries of the table the Go library
    is tested with, and on the directories used below. *)
Lemma unix_Rel_examples :
  unix_Rel "a/b" "a/b/." = (".", None)
  /\ unix_Rel "ab/cd" "ab/cde" = ("../cde", None)
  /\ unix_Rel "a/b" "a/b/c/d" = ("c/d", None)
  /\ unix_Rel "a/b/c" "a/c/d" = ("../../c/d", None)
  /\ unix_Rel "/a/b/../c" "/a/b" = ("../b", None)
  /\ unix_Rel "/a/b/c/d" "/a/b/" = ("../..", None)
  /\ unix_Rel "." "a/b" = ("a/b", None)
  /\ (unix_Rel "a" "/a").2 <> None
  /\ (unix_Rel ".." "a").2 <> None
  /\ unix_Rel "/var/lib/grafana/plugins" "/var/lib/grafana/plugins/loki" = ("loki", None)
  /\ unix_Rel "/var/lib/grafana/plugins" "/etc/cron.d" = ("../../../../etc/cron.d", None)
  /\ unix_Rel "/var/lib/grafana/plugins" "/var/lib/grafana" = ("..", None).
Proof. vm_compute. repeat split; discriminate. Qed.

(** X26. The guards of [Uninstall] that come before the containment
    check: no plugin handed out by a lookup gives [ErrPluginNotInstalled],
    a plugin that is not external gives [ErrUninstallCorePlugin]. *)
Lemma Uninstall_guards (filepath_Rel : string -> string -> string * option error)
  (pluginID : string) (m : PluginManagerV2) :
  pluginsMu m = freeMutex ->
  (dispatchable (plugins m) pluginID = None ->
   Uninstall filepath_Rel pluginID m = Ret (Some ErrPluginNotInstalled) m)
  /\ (forall p, dispatchable (plugins m) pluginID = Some p ->
        IsExternalPlugin p = false ->
        Uninstall filepath_Rel pluginID m = Ret (Some ErrUninstallCorePlugin) m).
Proof.
  intros Hfree. split.
  - intros Hnone. unfold Uninstall, bind. rewrite Plugin_free by assumption.
    rewrite Hnone. reflexivity.
  - intros p Hp Hext. unfold Uninstall, bind. rewrite Plugin_free by assumption.
    rewrite Hp, Hext. reflexivity.
Qed.

(** X27. The containment check as the code makes it: for a registered external
    plugin, when [filepath.Rel] fails or the relative path starts with
    [../], [Uninstall] fails with [ErrUninstallOutsideOfPluginDir] and
    leaves the registry, the mutex and the disk as they were. *)
Lemma Uninstall_rejects_outside
  (filepath_Rel : string -> string -> string * option error)
  (pluginID : string) (m : PluginManagerV2) (p : PluginV2) :
  pluginsMu m = freeMutex ->
  dispatchable (plugins m) pluginID = Some p ->
  IsExternalPlugin p = true ->
  (filepath_Rel (Cfg_PluginsPath m) (PluginDir p)).2 <> None
  \/ String.prefix "../" (filepath_Rel (Cfg_PluginsPath m) (PluginDir p)).1 = true ->
  Uninstall filepath_Rel pluginID m = Ret (Some ErrUninstallOutsideOfPluginDir) m.
Proof.
  intros Hfree Hp Hext Hrel. unfold Uninstall, bind. rewrite Plugin_free by assumption.
  rewrite Hp, Hext. cbn.
  destruct (filepath_Rel (Cfg_PluginsPath m) (PluginDir p)) as [path err].
  cbn in Hrel.
  destruct Hrel as [Herr | Hpre].
  - rewrite bool_decide_eq_true_2 by exact Herr. reflexivity.
  - change (".." +:+ filepath_Separator) with "../". rewrite Hpre.
    rewrite orb_true_r. reflexivity.
Qed.

(** Past the containment check a registered plugin is handed to
    [UnregisterAndStop], where the call blocks with [pluginsMu] held for
    writing; nothing has been removed from the registry or the disk. *)
Lemma Uninstall_accepted_blocks
  (filepath_Rel : string -> string -> string * option error)
  (pluginID : string) (m : PluginManagerV2) (p : PluginV2) (path : string) :
  pluginsMu m = freeMutex ->
  dispatchable (plugins m) pluginID = Some p ->
  IsExternalPlugin p = true ->
  filepath_Rel (Cfg_PluginsPath m) (PluginDir p) = (path, None) ->
  String.prefix "../" path = false ->
  Uninstall filepath_Rel pluginID m
  = Blocked (set_pluginsMu {| writer := true; readers := 0 |} m).
Proof.
  intros Hfree Hp Hext Hrel Hpre. unfold Uninstall, bind at 1.
  rewrite Plugin_free by assumption. rewrite Hp, Hext. cbn [negb].
  unfold bind at 1, gets. rewrite Hrel.
  change (".." +:+ filepath_Separator) with "../". rewrite Hpre.
  rewrite bool_decide_eq_false_2 by (intros H; apply H; reflexivity).
  cbn [orb]. unfold bind at 1. rewrite IsRegistered_free by assumption.
  rewrite Hp. rewrite bool_decide_eq_true_2 by eauto.
  unfold bind at 1. unfold UnregisterAndStop.
  rewrite withLock_free by assumption.
  unfold bind at 1. rewrite Plugin_under_writer by reflexivity. reflexivity.
Qed.

(** C1. [Uninstall] of an external plugin whose recorded directory is the
    parent of the plugins root: [filepath.Rel] gives [..], which does not
    start with [../], so the containment check lets it through and the
    call does not fail with [ErrUninstallOutsideOfPluginDir]; it goes on
    to [UnregisterAndStop] and blocks there. *)
Theorem Uninstall_accepts_parent_directory :
  unix_Rel (Cfg_PluginsPath exampleManager) (PluginDir acme) = ("..", None)
  /\ Uninstall unix_Rel "acme" exampleManager
     = Blocked (set_pluginsMu {| writer := true; readers := 0 |} exampleManager)
  /\ Uninstall unix_Rel "acme" exampleManager
     <> Ret (Some ErrUninstallOutsideOfPluginDir) exampleManager.
Proof.
  assert (Hrel : unix_Rel (Cfg_PluginsPath exampleManager) (PluginDir acme) = ("..", None))
    by (vm_compute; reflexivity).
  assert (Hrun : Uninstall unix_Rel "acme" exampleManager
                 = Blocked (set_pluginsMu {| writer := true; readers := 0 |} exampleManager)).
  { apply (Uninstall_accepted_blocks unix_Rel "acme" exampleManager acme "..");
      try reflexivity; try exact Hrel; vm_compute; reflexivity. }
  split; [exact Hrel|]. split; [exact Hrun|].
  rewrite Hrun. discriminate.
Qed.

(** * The properties at concrete inputs *)

Lemma Register_unique_witness :
  Register (pluginOf "retired" Core "/usr/share/grafana" false false None) exampleManager
  = Ret (Some (errors_New "plugin retired already registered")) exampleManager
  /\ Register mimir exampleManager
     = Ret None (set_plugins (<["mimir" := mimir]> (plugins exampleManager)) exampleManager)
  /\ Register mimir (set_plugins (<["mimir" := mimir]> (plugins exampleManager)) exampleManager)
     = Ret (Some (errors_New "plugin mimir already registered"))
           (set_plugins (<["mimir" := mimir]> (plugins exampleManager)) exampleManager).
Proof.
  split; [|split].
  - apply (proj1 (Register_unique exampleManager
                    (pluginOf "retired" Core "/usr/share/grafana" false false None)
                    eq_refl) retired).
    vm_compute. reflexivity.
  - apply (proj2 (Register_unique exampleManager mimir eq_refl)).
    vm_compute. reflexivity.
  - apply (proj2 (Register_unique exampleManager mimir eq_refl)).
    + vm_compute. reflexivity.
    + reflexivity.
Defined.

Lemma Plugin_nil_iff_witness :
  exists r, Plugin "retired" exampleManager = Ret r exampleManager
    /\ (r = None <->
        plugins exampleManager !! "retired" = None
        \/ exists p, plugins exampleManager !! "retired" = Some p
                     /\ IsDecommissioned p = true)
    /\ (forall p, r = Some p ->
          plugins exampleManager !! "retired" = Some p /\ IsDecommissioned p = false).
Proof. apply (Plugin_nil_iff exampleManager "retired"). reflexivity. Defined.

Lemma QueryData_dispatch_witness :
  (QueryData (requestFor "unknown") exampleManager
   = Ret (Some emptyQueryDataResponse, None) exampleManager
   /\ size (Responses emptyQueryDataResponse) = 0)
  /\ QueryData (requestFor "tempo") exampleManager
     = Ret (None, Some ErrPluginUnavailable) exampleManager
  /\ QueryData (requestFor "loki") exampleManager
     = Ret (None, Some (Wrapped "failed to query data" (errors_New "connection refused")))
           exampleManager.
Proof.
  split; [|split].
  - apply (proj1 (QueryData_dispatch exampleManager (requestFor "unknown") eq_refl)).
    vm_compute. reflexivity.
  - apply (proj1 (proj2 (QueryData_dispatch exampleManager (requestFor "tempo") eq_refl)
                        tempo None ErrPluginUnavailable
                        ltac:(vm_compute; reflexivity) eq_refl)).
    vm_compute. reflexivity.
  - apply (proj2 (proj2 (QueryData_dispatch exampleManager (requestFor "loki") eq_refl)
                        loki None (errors_New "connection refused")
                        ltac:(vm_compute; reflexivity) eq_refl)).
    vm_compute. reflexivity.
Defined.

Lemma restartKilledProcess_supervision_witness :
  length (List.filter isStart (restartKilledProcess exampleTicks).1) = 1
  /\ restartKilledProcess (exampleTicks ++ ticker_C retired :: [ticker_C loki])
     = ((restartKilledProcess exampleTicks).1
          ++ [CallLogger (logDebug "Plugin decommissioned")], Some None)
  /\ restartKilledProcess (exampleTicks ++ ticker_C loki :: [])
     = ((restartKilledProcess exampleTicks).1
          ++ [CallLogger (logDebug "Restarting plugin"); CallStart;
              CallLogger (logError "Failed to restart plugin"
                                   (errors_New "connection refused"))],
        None)
  /\ restartKilledProcess (exampleTicks ++ ctx_Done (Some context_Canceled) :: [])
     = ((restartKilledProcess exampleTicks).1, Some None)
  /\ restartKilledProcess (exampleTicks ++ ctx_Done (Some context_DeadlineExceeded) :: [])
     = ((restartKilledProcess exampleTicks).1, Some (Some context_DeadlineExceeded)).
Proof.
  destruct (restartKilledProcess_supervision exampleTicks eq_refl)
    as (Hstarts & Hdecom & Hexit & _ & Hcancel & Hother).
  split; [exact Hstarts|].
  split; [apply Hdecom; reflexivity|].
  split; [apply (Hexit loki []); reflexivity|].
  split; [apply Hcancel; reflexivity | apply Hother; reflexivity].
Defined.

Lemma CheckHealth_outcomes_witness :
  (exists result,
     CheckHealth (contextOf "unknown" "http://169.254.169.254") exampleManager
     = Ret (Some result, None) exampleManager
     /\ Status result = 403%Z /\ Message result = "Access denied")
  /\ CheckHealth (contextOf "loki" "http://localhost:3100") exampleManager
     = Ret (None, Some (Wrapped "failed to check plugin health" ErrHealthCheckFailed))
           exampleManager.
Proof.
  split.
  - apply (proj1 (CheckHealth_outcomes exampleManager
                    (contextOf "unknown" "http://169.254.169.254"))
                 (errors_New "request is not allowed")).
    vm_compute. reflexivity.
  - apply (proj2 (CheckHealth_outcomes exampleManager
                    (contextOf "loki" "http://localhost:3100"))
                 loki None (errors_New "connection refused")).
    + vm_compute. reflexivity.
    + reflexivity.
    + vm_compute. reflexivity.
    + reflexivity.
    + vm_compute. reflexivity.
Defined.

Lemma flushStream_receive_failures_witness :
  (flushStream (bridgeOf [Failed io_EOF])).1
  = Some (Some (errors_New "received empty resource response"))
  /\ (flushStream {| stream := {| incoming := []; closed := true |};
                     w := exampleWriter; pluginLog := [] |}).1
     = Some (Some (errors_New "received empty resource response"))
  /\ (flushStream (bridgeOf [Failed context_Canceled])).1
     = Some (Some (Wrapped "failed to receive response from resource call"
                           context_Canceled))
  /\ flushStream (bridgeOf (map Chunk [cookieChunk; plainChunk]
                              ++ Failed context_Canceled :: [Chunk plainChunk]))
     = (Some None,
        {| stream := {| incoming := []; closed := true |};
           w := (processChunks 0 [cookieChunk; plainChunk] exampleWriter []).1;
           pluginLog :=
             (processChunks 0 [cookieChunk; plainChunk] exampleWriter []).2
             ++ [logError "Failed to receive response from resource call"
                          context_Canceled] |}).
Proof.
  destruct (flushStream_receive_failures (bridgeOf [Failed io_EOF])) as (Hempty & _ & _ & _).
  destruct (flushStream_receive_failures
              {| stream := {| incoming := []; closed := true |};
                 w := exampleWriter; pluginLog := [] |}) as (_ & Hdrained & _ & _).
  destruct (flushStream_receive_failures (bridgeOf [Failed context_Canceled]))
    as (_ & _ & Hhard & _).
  destruct (flushStream_receive_failures
              (bridgeOf (map Chunk [cookieChunk; plainChunk]
                           ++ Failed context_Canceled :: [Chunk plainChunk])))
    as (_ & _ & _ & Hlate).
  split; [|split; [|split]].
  - rewrite (Hempty io_EOF [] eq_refl eq_refl). reflexivity.
  - rewrite (Hdrained eq_refl eq_refl). reflexivity.
  - rewrite (Hhard context_Canceled [] eq_refl eq_refl). reflexivity.
  - apply (Hlate cookieChunk [plainChunk] context_Canceled [Chunk plainChunk]
                 eq_refl eq_refl).
Defined.

Lemma decommissioned_like_absent_witness :
  let absent := set_plugins (delete "retired" (plugins exampleManager)) exampleManager in
  (QueryData (requestFor "retired") exampleManager
   = Ret (Some emptyQueryDataResponse, None) exampleManager
   /\ QueryData (requestFor "retired") absent
      = Ret (Some emptyQueryDataResponse, None) absent)
  /\ (CollectMetrics "retired" exampleManager
      = Ret (None, Some ErrPluginNotRegistered) exampleManager
      /\ CollectMetrics "retired" absent = Ret (None, Some ErrPluginNotRegistered) absent)
  /\ (CheckHealth (contextOf "retired" "http://localhost:3100") exampleManager
      = Ret (None, Some ErrPluginNotRegistered) exampleManager
      /\ CheckHealth (contextOf "retired" "http://localhost:3100") absent
         = Ret (None, Some ErrPluginNotRegistered) absent).
Proof.
  apply (decommissioned_like_absent exampleManager retired (requestFor "retired")
           (contextOf "retired" "http://localhost:3100"));
    try reflexivity; vm_compute; reflexivity.
Defined.

Lemma Uninstall_rejects_outside_witness :
  Uninstall unix_Rel "stray" exampleManager
  = Ret (Some ErrUninstallOutsideOfPluginDir) exampleManager.
Proof.
  apply (Uninstall_rejects_outside unix_Rel "stray" exampleManager stray);
    try reflexivity; try (vm_compute; reflexivity).
  right. vm_compute. reflexivity.
Defined.

Lemma CheckHealth_validates_first_witness :
  CheckHealth (contextOf "unknown" "http://169.254.169.254")
              (set_plugins ∅ exampleManager)
  = Ret (Some accessDenied, None) (set_plugins ∅ exampleManager).
Proof.
  apply (proj1 (CheckHealth_validates_first exampleManager
                  (contextOf "unknown" "http://169.254.169.254")
                  (errors_New "request is not allowed")
                  ltac:(vm_compute; reflexivity) ∅)).
Defined.

(** * Further properties *)

(** ** Registry operations together *)

(** [Plugin] needs the mutex for reading only. *)
Lemma Plugin_readable (pluginID : string) (m : PluginManagerV2) :
  writer (pluginsMu m) = false ->
  Plugin pluginID m = Ret (dispatchable (plugins m) pluginID) m.
Proof.
  intros Hw. unfold Plugin, bind, RLock, RUnlock, gets, modify, ret.
  rewrite Hw. cbn.
  destruct m as [root val inst ps [wr rd] rm]; cbn in *; subst wr. reflexivity.
Qed.

Lemma unregister_free (p : PluginV2) (m : PluginManagerV2) :
  pluginsMu m = freeMutex ->
  unregister p m = Ret None (set_plugins (delete (ID p) (plugins m)) m).
Proof.
  intros Hfree. unfold unregister. rewrite withLock_free by assumption.
  unfold bind, modify, ret. cbn.
  destruct m as [root val inst ps mu rm]; cbn in *; subst mu. reflexivity.
Qed.

Lemma set_plugins_same (m : PluginManagerV2) : set_plugins (plugins m) m = m.
Proof. destruct m; reflexivity. Qed.

(** X1. After a successful [Register(p)] the mutex is free again, a
    lookup of [p]'s id hands out [p] unless [p] is flagged
    decommissioned, and lookups of other ids answer as before. *)
Theorem Register_then_Plugin (m : PluginManagerV2) (p : PluginV2) :
  pluginsMu m = freeMutex ->
  plugins m !! ID p = None ->
  exists m',
    Register p m = Ret None m'
    /\ pluginsMu m' = freeMutex
    /\ Plugin (ID p) m' = Ret (if IsDecommissioned p then None else Some p) m'
    /\ forall pluginID, pluginID <> ID p ->
         Plugin pluginID m' = Ret (dispatchable (plugins m) pluginID) m'.
Proof.
  intros Hfree Hnone. exists (set_plugins (<[ID p := p]> (plugins m)) m).
  assert (Hfree' : pluginsMu (set_plugins (<[ID p := p]> (plugins m)) m) = freeMutex)
    by exact Hfree.
  split; [rewrite Register_free by assumption; rewrite Hnone; reflexivity|].
  split; [exact Hfree'|]. split.
  - rewrite Plugin_free by assumption. unfold dispatchable. cbn.
    rewrite lookup_insert_eq. reflexivity.
  - intros pluginID Hne. rewrite Plugin_free by assumption.
    unfold dispatchable. cbn. rewrite lookup_insert_ne by congruence. reflexivity.
Qed.

(** X2. [unregister] never fails: it removes the entry of the plugin's id
    if there is one and changes nothing otherwise; the id is then looked
    up in vain, and [Register] followed by [unregister] gives the manager
    back as it was. *)
Theorem unregister_round_trip (m : PluginManagerV2) (p : PluginV2) :
  pluginsMu m = freeMutex ->
  (exists m', unregister p m = Ret None m'
              /\ pluginsMu m' = freeMutex
              /\ Plugin (ID p) m' = Ret None m'
              /\ forall pluginID, pluginID <> ID p ->
                   plugins m' !! pluginID = plugins m !! pluginID)
  /\ (plugins m !! ID p = None ->
      unregister p m = Ret None m
      /\ exists m1, Register p m = Ret None m1 /\ unregister p m1 = Ret None m).
Proof.
  intros Hfree. split.
  - exists (set_plugins (delete (ID p) (plugins m)) m).
    split; [apply unregister_free; assumption|].
    split; [exact Hfree|]. split.
    + rewrite Plugin_free by exact Hfree. unfold dispatchable. cbn.
      rewrite lookup_delete_eq. reflexivity.
    + intros pluginID Hne. cbn. apply lookup_delete_ne. congruence.
  - intros Hnone. split.
    + rewrite unregister_free by assumption. rewrite delete_id by assumption.
      rewrite set_plugins_same. reflexivity.
    + exists (set_plugins (<[ID p := p]> (plugins m)) m). split.
      * rewrite Register_free by assumption. rewrite Hnone. reflexivity.
      * rewrite unregister_free by exact Hfree. cbn.
        rewrite delete_insert_id by assumption.
        destruct m; reflexivity.
Qed.

Lemma IsSupported_lookup (pluginID : string) (m : PluginManagerV2) :
  IsSupported pluginID m = Ret (bool_decide (is_Some (plugins m !! pluginID))) m.
Proof.
  unfold IsSupported, gets. f_equal.
  destruct (plugins m !! pluginID) as [p|] eqn:Hp.
  - rewrite bool_decide_eq_true_2 by eauto.
    apply existsb_exists. exists (pluginID, p). split.
    + apply list_elem_of_In, elem_of_map_to_list. exact Hp.
    + cbn. apply bool_decide_eq_true_2. reflexivity.
  - rewrite bool_decide_eq_false_2 by (intros [? ?]; discriminate).
    apply not_true_is_false. intros Hex.
    apply existsb_exists in Hex as [[k q] [Hin Hk]].
    apply list_elem_of_In, elem_of_map_to_list in Hin.
    cbn in Hk. apply bool_decide_eq_true_1 in Hk. subst k. congruence.
Qed.

(** X3. [IsSupported] answers whether the map has an entry under the id,
    and leaves the manager alone; [IsRegistered] answers whether a lookup
    would hand the entity out.  So a registered id is supported, and a
    decommissioned entry is supported but not registered. *)
Theorem IsSupported_IsRegistered (m : PluginManagerV2) (pluginID : string) :
  pluginsMu m = freeMutex ->
  exists supported registered,
    IsSupported pluginID m = Ret supported m
    /\ IsRegistered pluginID m = Ret registered m
    /\ (supported = true <-> is_Some (plugins m !! pluginID))
    /\ (registered = true <-> is_Some (dispatchable (plugins m) pluginID))
    /\ (registered = true -> supported = true)
    /\ (forall p, plugins m !! pluginID = Some p -> IsDecommissioned p = true ->
          supported = true /\ registered = false).
Proof.
  intros Hfree.
  exists (bool_decide (is_Some (plugins m !! pluginID))),
         (bool_decide (is_Some (dispatchable (plugins m) pluginID))).
  split; [apply IsSupported_lookup|].
  split; [apply IsRegistered_free; assumption|].
  split; [apply bool_decide_eq_true|].
  split; [apply bool_decide_eq_true|].
  split.
  - intros Hreg. apply bool_decide_eq_true in Hreg as [p Hp].
    apply dispatchable_Some in Hp as [Hp _].
    apply bool_decide_eq_true_2. eauto.
  - intros p Hp Hd. split.
    + apply bool_decide_eq_true_2. eauto.
    + apply bool_decide_eq_false_2.
      rewrite (dispatchable_decommissioned _ _ _ Hp Hd). intros [? ?]; discriminate.
Qed.

(** X4. [PluginByType] hands out an entity exactly when [Plugin] hands it
    out and its type is the requested one; it leaves the manager as it
    was. *)
Theorem PluginByType_refines_Plugin (Type_ : PluginV2 -> string)
  (m : PluginManagerV2) (pluginID pluginType : string) :
  writer (pluginsMu m) = false ->
  exists r,
    PluginByType Type_ pluginID pluginType m = Ret r m
    /\ forall p, r = Some p <->
                 Plugin pluginID m = Ret (Some p) m /\ Type_ p = pluginType.
Proof.
  intros Hw. rewrite Plugin_readable by assumption.
  exists (match plugins m !! pluginID with
          | Some p' =>
              if IsDecommissioned p' || negb (bool_decide (Type_ p' = pluginType))
              then None else Some p'
          | None => None
          end).
  split.
  - unfold PluginByType, bind, RLock, RUnlock, gets, modify, ret. rewrite Hw. cbn.
    destruct m as [root val inst ps [wr rd] rm]; cbn in *; subst wr. reflexivity.
  - intros p. unfold dispatchable.
    destruct (plugins m !! pluginID) as [q|]; [|split; [discriminate | intros [[=] _]]].
    destruct (IsDecommissioned q); cbn; [split; [discriminate | intros [[=] _]]|].
    case_bool_decide as Hty; cbn.
    + split; [intros [= <-]; auto | intros [[= <-] _]; reflexivity].
    + split; [discriminate | intros [[= <-] Hp]; contradiction].
Qed.

(** X5. [Plugins] lists the entities of the registry map whose type is
    among the requested ones (among [PluginTypes] when none is
    requested), whether they are decommissioned or not, and leaves the
    manager as it was. *)
Theorem Plugins_lists_map (Type_ : PluginV2 -> string) (PluginTypes : list string)
  (m : PluginManagerV2) (pluginTypes : list string) :
  exists listed,
    Plugins Type_ PluginTypes pluginTypes m = Ret listed m
    /\ forall p,
         In p listed <->
         (exists pluginID, plugins m !! pluginID = Some p)
         /\ In (Type_ p) (match pluginTypes with
                          | [] => PluginTypes
                          | _ :: _ => pluginTypes
                          end).
Proof.
  unfold Plugins, gets. eexists. split; [reflexivity|].
  intros p. rewrite filter_In, in_map_iff, bool_decide_eq_true, elem_of_list_to_set.
  rewrite list_elem_of_In.
  assert (Hmap : (exists entry : string * PluginV2,
                     entry.2 = p /\ In entry (map_to_list (plugins m)))
                 <-> exists pluginID, plugins m !! pluginID = Some p).
  { split.
    - intros [[k q] [Hq Hin]]. cbn in Hq. subst q. exists k.
      apply elem_of_map_to_list, list_elem_of_In. exact Hin.
    - intros [k Hk]. exists (k, p). split; [reflexivity|].
      apply list_elem_of_In, elem_of_map_to_list. exact Hk. }
  rewrite Hmap. destruct pluginTypes; reflexivity.
Qed.

(** ** filterOutDuplicates *)

Lemma filterOutDuplicates_loop_spec (loadedPlugins : list PluginV2) :
  forall (seen : gset string) (result : list PluginV2) (m : PluginManagerV2),
  writer (pluginsMu m) = false ->
  exists kept,
    filterOutDuplicates_loop loadedPlugins seen result m = Ret (result ++ kept) m
    /\ sublist kept loadedPlugins
    /\ NoDup (map ID kept)
    /\ (forall p, In p kept ->
          (ID p ∉ seen)
          /\ dispatchable (plugins m) (ID p) = None
          /\ corePluginJSONPaths !! ID p = None)
    /\ (forall p, In p loadedPlugins ->
          (ID p ∈ seen)
          \/ is_Some (dispatchable (plugins m) (ID p))
          \/ is_Some (corePluginJSONPaths !! ID p)
          \/ exists q, In q kept /\ ID q = ID p).
Proof.
  induction loadedPlugins as [|scanned rest IH]; intros seen result m Hw.
  - exists []. cbn. rewrite app_nil_r.
    split; [reflexivity|]. split; [apply sublist_nil|].
    split; [constructor|]. split; intros p [].
  - cbn [filterOutDuplicates_loop]. case_bool_decide as Hseen.
    + destruct (IH seen result m Hw) as (kept & Hrun & Hsub & Hnd & Hkept & Hall).
      exists kept. split; [exact Hrun|]. split; [apply sublist_cons; exact Hsub|].
      split; [exact Hnd|]. split; [exact Hkept|].
      intros p [<- | Hin]; [left; exact Hseen | apply Hall; exact Hin].
    + unfold bind. rewrite Plugin_readable by assumption.
      destruct (dispatchable (plugins m) (ID scanned)) as [existing|] eqn:Hex.
      * destruct (IH ({[ID scanned]} ∪ seen) result m Hw)
          as (kept & Hrun & Hsub & Hnd & Hkept & Hall).
        exists kept. split; [exact Hrun|]. split; [apply sublist_cons; exact Hsub|].
        split; [exact Hnd|]. split.
        -- intros p Hin. destruct (Hkept p Hin) as (Hns & Hd & Hc).
           split; [intros Hs; apply Hns, elem_of_union_r, Hs | auto].
        -- intros p [<- | Hin]; [right; left; eauto|].
           destruct (Hall p Hin) as [Hs | Hrest]; [|right; exact Hrest].
           apply elem_of_union in Hs as [Hs | Hs]; [|left; exact Hs].
           apply elem_of_singleton in Hs. rewrite Hs. right; left; eauto.
      * case_bool_decide as Hcore.
        -- destruct (IH ({[ID scanned]} ∪ seen) result m Hw)
             as (kept & Hrun & Hsub & Hnd & Hkept & Hall).
           exists kept. split; [exact Hrun|]. split; [apply sublist_cons; exact Hsub|].
           split; [exact Hnd|]. split.
           ++ intros p Hin. destruct (Hkept p Hin) as (Hns & Hd & Hc).
              split; [intros Hs; apply Hns, elem_of_union_r, Hs | auto].
           ++ intros p [<- | Hin]; [right; right; left; exact Hcore|].
              destruct (Hall p Hin) as [Hs | Hrest]; [|right; exact Hrest].
              apply elem_of_union in Hs as [Hs | Hs]; [|left; exact Hs].
              apply elem_of_singleton in Hs. rewrite Hs. right; right; left; exact Hcore.
        -- destruct (IH ({[ID scanned]} ∪ seen) (result ++ [scanned]) m Hw)
             as (kept & Hrun & Hsub & Hnd & Hkept & Hall).
           exists (scanned :: kept).
           split; [rewrite Hrun, <- app_assoc; reflexivity|].
           split; [apply sublist_skip; exact Hsub|].
           split.
           ++ cbn. constructor; [|exact Hnd].
              intros Hin. apply list_elem_of_In, in_map_iff in Hin as [q [Hq Hin]].
              destruct (Hkept q Hin) as (Hns & _). apply Hns.
              rewrite Hq. apply elem_of_union_l, elem_of_singleton. reflexivity.
           ++ split.
              ** intros p [<- | Hin].
                 --- split; [exact Hseen|]. split; [exact Hex|].
                     destruct (corePluginJSONPaths !! ID scanned) eqn:Hc; [|reflexivity].
                     exfalso. apply Hcore. eauto.
                 --- destruct (Hkept p Hin) as (Hns & Hd & Hc).
                     split; [intros Hs; apply Hns, elem_of_union_r, Hs | auto].
              ** intros p [<- | Hin].
                 --- right; right; right. exists scanned. split; [left|]; reflexivity.
                 --- destruct (Hall p Hin) as [Hs | [Hd | [Hc | (q & Hq & Hid)]]].
                     +++ apply elem_of_union in Hs as [Hs | Hs]; [|left; exact Hs].
                         apply elem_of_singleton in Hs.
                         right; right; right. exists scanned. split; [left; reflexivity | auto].
                     +++ right; left; exact Hd.
                     +++ right; right; left; exact Hc.
                     +++ right; right; right. exists q. split; [right; exact Hq | exact Hid].
Qed.

(** X6. [filterOutDuplicates] returns a sub-sequence of the loaded
    plugins in which no id occurs twice, no id is one a registry lookup
    hands out, and no id is that of a managed core plugin; every loaded
    plugin whose id is neither is represented by a kept plugin of the
    same id.  The manager is left as it was. *)
Theorem filterOutDuplicates_spec (loadedPlugins : list PluginV2) (m : PluginManagerV2) :
  writer (pluginsMu m) = false ->
  exists kept,
    filterOutDuplicates loadedPlugins m = Ret kept m
    /\ sublist kept loadedPlugins
    /\ NoDup (map ID kept)
    /\ (forall p, In p kept ->
          dispatchable (plugins m) (ID p) = None
          /\ corePluginJSONPaths !! ID p = None)
    /\ (forall p, In p loadedPlugins ->
          is_Some (dispatchable (plugins m) (ID p))
          \/ is_Some (corePluginJSONPaths !! ID p)
          \/ exists q, In q kept /\ ID q = ID p).
Proof.
  intros Hw.
  destruct (filterOutDuplicates_loop_spec loadedPlugins ∅ [] m Hw)
    as (kept & Hrun & Hsub & Hnd & Hkept & Hall).
  exists kept. split; [exact Hrun|]. split; [exact Hsub|]. split; [exact Hnd|].
  split.
  - intros p Hin. destruct (Hkept p Hin) as (_ & Hd & Hc). auto.
  - intros p Hin. destruct (Hall p Hin) as [Hs | Hrest]; [|exact Hrest].
    apply elem_of_empty in Hs. contradiction.
Qed.

(** ** Starting plugins *)

Lemma IsRegistered_readable (pluginID : string) (m : PluginManagerV2) :
  writer (pluginsMu m) = false ->
  IsRegistered pluginID m
  = Ret (bool_decide (is_Some (dispatchable (plugins m) pluginID))) m.
Proof.
  intros Hw. unfold IsRegistered, bind. rewrite Plugin_readable by assumption.
  destruct (dispatchable (plugins m) pluginID) as [p|] eqn:Hp.
  - apply dispatchable_Some in Hp as [_ Hd]. unfold ret. rewrite Hd.
    rewrite bool_decide_eq_true_2 by eauto. reflexivity.
  - rewrite bool_decide_eq_false_2 by (intros [? ?]; discriminate). reflexivity.
Qed.

Lemma registerAndStart_free (p : PluginV2) (m : PluginManagerV2) :
  pluginsMu m = freeMutex ->
  registerAndStart p m
  = match plugins m !! ID p with
    | Some _ =>
        Ret (Some (errors_New ("plugin " +:+ ID p +:+ " already registered")), []) m
    | None =>
        if IsDecommissioned p
        then Ret (Some (errors_New ("plugin " +:+ ID p +:+ " is not registered")), [])
                 (set_plugins (<[ID p := p]> (plugins m)) m)
        else Ret (None, start p) (set_plugins (<[ID p := p]> (plugins m)) m)
    end.
Proof.
  intros Hfree. unfold registerAndStart, bind at 1.
  rewrite Register_free by assumption.
  destruct (plugins m !! ID p) as [q|]; [reflexivity|].
  unfold bind. rewrite IsRegistered_free by exact Hfree.
  unfold dispatchable. cbn. rewrite lookup_insert_eq.
  destruct (IsDecommissioned p).
  - rewrite bool_decide_eq_false_2 by (intros [? ?]; discriminate). reflexivity.
  - rewrite bool_decide_eq_true_2 by eauto. reflexivity.
Qed.

(** X7. [registerAndStart]: an id already in the map gives the
    already-registered error and changes nothing.  Otherwise the entity
    is inserted; if it is flagged decommissioned the call then fails with
    "is not registered" although the entry stays in the map; if not, the
    call returns nil, whatever starting the process gave. *)
Theorem registerAndStart_outcomes (m : PluginManagerV2) (p : PluginV2) :
  pluginsMu m = freeMutex ->
  (forall q, plugins m !! ID p = Some q ->
     registerAndStart p m
     = Ret (Some (errors_New ("plugin " +:+ ID p +:+ " already registered")), []) m)
  /\ (plugins m !! ID p = None ->
      exists r m',
        registerAndStart p m = Ret r m'
        /\ plugins m' = <[ID p := p]> (plugins m)
        /\ pluginsMu m' = freeMutex
        /\ (IsDecommissioned p = true ->
            r = (Some (errors_New ("plugin " +:+ ID p +:+ " is not registered")), []))
        /\ (IsDecommissioned p = false -> r = (None, start p))).
Proof.
  intros Hfree. split.
  - intros q Hq. rewrite registerAndStart_free by assumption. rewrite Hq. reflexivity.
  - intros Hnone. rewrite registerAndStart_free by assumption. rewrite Hnone.
    destruct (IsDecommissioned p); eexists _, _;
      (split; [reflexivity|]); (split; [reflexivity|]); (split; [exact Hfree|]);
      split; intros H; try discriminate H; reflexivity.
Qed.

(** X8. [start] does nothing for a plugin that is not both managed and a
    backend.  Otherwise it calls [Start] once; the restart loop is put
    in a goroutine only if that first [Start] succeeded, and a failure is
    logged and nothing else. *)
Theorem start_supervises_after_first_start (p : PluginV2) :
  (IsManaged p && Backend p = false -> start p = [])
  /\ (IsManaged p && Backend p = true ->
      (Start p = None ->
       start p = [OnPlugin CallStart; GoRestartKilledProcess])
      /\ (forall e, Start p = Some e ->
            start p = [OnPlugin CallStart;
                       OnPlugin (CallLogger (logError "Failed to start plugin" e))]))
  /\ (In GoRestartKilledProcess (start p)
      <-> IsManaged p = true /\ Backend p = true /\ Start p = None).
Proof.
  unfold start, startPluginAndRestartKilledProcesses.
  destruct (IsManaged p), (Backend p), (Start p) as [e|]; cbn.
  all: split; [intros H; first [discriminate H | reflexivity] |].
  all: split;
    [intros H; first
       [ discriminate H
       | split;
         [ intros H'; first [discriminate H' | reflexivity]
         | intros e' H'; first [discriminate H' | injection H' as <-; reflexivity] ] ] |].
  all: split;
    [ intros Hin;
      repeat (destruct Hin as [Hin | Hin]; try discriminate Hin);
      try contradiction; auto
    | intros (H1 & H2 & H3); try discriminate; auto ].
Qed.

(** ** Unregistering and uninstalling *)

Lemma UnregisterAndStop_blocked_state (pluginID : string) (m : PluginManagerV2) :
  exists m',
    UnregisterAndStop pluginID m = Blocked m'
    /\ plugins m' = plugins m
    /\ removedDirs m' = removedDirs m.
Proof.
  unfold UnregisterAndStop, withLock, bind at 1, Lock.
  destruct (writer (pluginsMu m) || negb (readers (pluginsMu m) =? 0)%nat).
  - exists m. repeat split.
  - unfold bind at 1, bind at 1. rewrite Plugin_under_writer by reflexivity.
    eexists. repeat split.
Qed.

(** X9. [UnregisterAndStop] takes the mutex for writing and then asks
    [Plugin], which needs it for reading: the call never returns, and it
    leaves the registry map and the removed directories as they were
    (the entry is neither flagged decommissioned nor deleted). *)
Theorem UnregisterAndStop_never_returns (pluginID : string) (m : PluginManagerV2) :
  (forall r m', UnregisterAndStop pluginID m <> Ret r m')
  /\ plugins (stateOf (UnregisterAndStop pluginID m)) = plugins m
  /\ removedDirs (stateOf (UnregisterAndStop pluginID m)) = removedDirs m.
Proof.
  destruct (UnregisterAndStop_blocked_state pluginID m) as (m' & -> & Hps & Hrm).
  split; [intros r m1; discriminate | split; assumption].
Qed.

Lemma Uninstall_cases
  (filepath_Rel : string -> string -> string * option error)
  (pluginID : string) (m : PluginManagerV2) :
  match Uninstall filepath_Rel pluginID m with
  | Ret r m' => r <> None /\ m' = m
  | Blocked m' => plugins m' = plugins m /\ removedDirs m' = removedDirs m
  end.
Proof.
  destruct (writer (pluginsMu m)) eqn:Hw.
  - unfold Uninstall, bind.
    rewrite Plugin_under_writer by assumption. split; reflexivity.
  - unfold Uninstall, bind at 1. rewrite Plugin_readable by assumption.
    destruct (dispatchable (plugins m) pluginID) as [p|] eqn:Hp;
      [|split; [discriminate | reflexivity]].
    destruct (IsExternalPlugin p); cbn [negb];
      [|split; [discriminate | reflexivity]].
    unfold bind at 1, gets.
    destruct (filepath_Rel (Cfg_PluginsPath m) (PluginDir p)) as [path err].
    destruct (bool_decide (err <> None) || String.prefix (".." +:+ filepath_Separator) path);
      [split; [discriminate | reflexivity]|].
    unfold bind at 1. rewrite IsRegistered_readable by assumption.
    rewrite Hp. rewrite bool_decide_eq_true_2 by eauto.
    unfold bind at 1.
    destruct (UnregisterAndStop_blocked_state pluginID m) as (m' & -> & Hps & Hrm).
    split; assumption.
Qed.

(** X10. [Uninstall] never returns nil and never changes the registry map
    or the disk: it fails with an error and leaves the manager as it
    was, or, for a plugin that passes its checks, it blocks in
    [UnregisterAndStop] before anything is removed. *)
Theorem Uninstall_never_removes
  (filepath_Rel : string -> string -> string * option error)
  (pluginID : string) (m : PluginManagerV2) :
  (exists e, Uninstall filepath_Rel pluginID m = Ret (Some e) m)
  \/ (exists m', Uninstall filepath_Rel pluginID m = Blocked m'
                 /\ plugins m' = plugins m
                 /\ removedDirs m' = removedDirs m).
Proof.
  pose proof (Uninstall_cases filepath_Rel pluginID m) as H.
  destruct (Uninstall filepath_Rel pluginID m) as [[e|] m'|m'].
  - left. exists e. destruct H as [_ ->]. reflexivity.
  - destruct H as [H _]. contradiction.
  - right. exists m'. split; [reflexivity | exact H].
Qed.

(** ** What installation keeps *)

Lemma keeps_ret {A} (I : PluginManagerV2 -> Prop) (a : A) : keeps I (ret a).
Proof. intros m Hm. exact Hm. Qed.

Lemma keeps_gets {A} (I : PluginManagerV2 -> Prop) (f : PluginManagerV2 -> A) :
  keeps I (gets f).
Proof. intros m Hm. exact Hm. Qed.

Lemma keeps_bind {A B} (I : PluginManagerV2 -> Prop) (c : M A) (k : A -> M B) :
  keeps I c -> (forall a, keeps I (k a)) -> keeps I (bind c k).
Proof.
  intros Hc Hk m Hm. unfold bind. specialize (Hc m Hm).
  destruct (c m) as [a m'|m']; [apply Hk; exact Hc | exact Hc].
Qed.

Lemma grownFrom_mutex (m0 m : PluginManagerV2) (mu : RWMutex) :
  grownFrom m0 m -> grownFrom m0 (set_pluginsMu mu m).
Proof. intros [Hps Hrm]. split; assumption. Qed.

Lemma keeps_Plugin (m0 : PluginManagerV2) (pluginID : string) :
  keeps (grownFrom m0) (Plugin pluginID).
Proof.
  intros m Hm. unfold Plugin, bind, RLock, RUnlock, gets, modify, ret.
  destruct (writer (pluginsMu m)); cbn; [exact Hm|].
  destruct Hm as [Hps Hrm]. split; assumption.
Qed.

Lemma keeps_IsRegistered (m0 : PluginManagerV2) (pluginID : string) :
  keeps (grownFrom m0) (IsRegistered pluginID).
Proof.
  apply keeps_bind; [apply keeps_Plugin|].
  intros [p|]; apply keeps_ret.
Qed.

Lemma keeps_Register (m0 : PluginManagerV2) (p : PluginV2) :
  keeps (grownFrom m0) (Register p).
Proof.
  intros m Hm. unfold Register, withLock, bind, Lock, Unlock, gets, modify, ret.
  destruct (writer (pluginsMu m) || negb (readers (pluginsMu m) =? 0)%nat);
    cbn; [exact Hm|].
  destruct Hm as [Hps Hrm].
  destruct (plugins m !! ID p) as [q|] eqn:Hq; cbn; split; try assumption.
  intros id q Hid. cbn.
  rewrite lookup_insert_ne; [apply Hps; exact Hid|].
  intros <-. apply Hps in Hid. congruence.
Qed.

Lemma keeps_registerAndStart (m0 : PluginManagerV2) (p : PluginV2) :
  keeps (grownFrom m0) (registerAndStart p).
Proof.
  apply keeps_bind; [apply keeps_Register|].
  intros [e|]; [apply keeps_ret|].
  apply keeps_bind; [apply keeps_IsRegistered|].
  intros []; apply keeps_ret.
Qed.

Lemma keeps_filterOutDuplicates_loop (m0 : PluginManagerV2)
  (loadedPlugins : list PluginV2) :
  forall (seen : gset string) (result : list PluginV2),
  keeps (grownFrom m0) (filterOutDuplicates_loop loadedPlugins seen result).
Proof.
  induction loadedPlugins as [|scanned rest IH]; intros seen result;
    [apply keeps_ret|].
  cbn [filterOutDuplicates_loop]. case_bool_decide; [apply IH|].
  apply keeps_bind; [apply keeps_Plugin|].
  intros [existing|]; [apply IH|]. case_bool_decide; apply IH.
Qed.

Lemma grownFrom_refl (m : PluginManagerV2) : grownFrom m m.
Proof. split; auto. Qed.

Section InstallationProperties.

Variable fs_Exists : string -> bool * option error.
Variable PluginFinder_Find : string -> list string * option error.
Variable PluginLoader_LoadAll : list string -> list PluginV2 * option error.
Variable PluginInitializer_Initialize : PluginV2 -> PluginV2 * option error.
Variable Info_Version : PluginV2 -> string.
Variable pluginInstaller_GetUpdateInfo : string -> string -> string -> string * option error.
Variable pluginInstaller_Install : string -> string -> string -> string -> string -> option error.
Variable grafanaComURL : string.
Variable filepath_Rel : string -> string -> string * option error.

Lemma keeps_installEach (m0 : PluginManagerV2) (loadedPlugins : list PluginV2) :
  keeps (grownFrom m0) (installEach PluginInitializer_Initialize loadedPlugins).
Proof.
  induction loadedPlugins as [|p rest IH]; [apply keeps_ret|].
  cbn [installEach].
  destruct (PluginInitializer_Initialize p) as [p' [e|]]; [apply keeps_ret|].
  apply keeps_bind; [apply keeps_registerAndStart|].
  intros [[e|] started]; cbn; [apply keeps_ret|].
  apply keeps_bind; [exact IH|]. intros others. apply keeps_ret.
Qed.

(** X11. [installPlugins] only ever adds to the registry: whatever the
    finder, loader and initializer answer, and whether the call returns
    (with or without an error) or blocks, every entry the map had is
    still there unchanged, and nothing is removed from disk. *)
Theorem installPlugins_only_adds (path : string) (m : PluginManagerV2) :
  grownFrom m
    (stateOf (installPlugins fs_Exists PluginFinder_Find PluginLoader_LoadAll
                             PluginInitializer_Initialize path m)).
Proof.
  assert (H : keeps (grownFrom m)
                (installPlugins fs_Exists PluginFinder_Find PluginLoader_LoadAll
                                PluginInitializer_Initialize path)).
  { unfold installPlugins.
    destruct (fs_Exists path) as [ex [e|]]; [apply keeps_ret|].
    destruct (negb ex); [apply keeps_ret|].
    destruct (PluginFinder_Find path) as [paths [e|]]; [apply keeps_ret|].
    destruct (PluginLoader_LoadAll paths) as [loaded [e|]]; [apply keeps_ret|].
    apply keeps_bind; [apply keeps_filterOutDuplicates_loop|].
    intros kept. apply keeps_installEach. }
  apply H. apply grownFrom_refl.
Qed.

Lemma grownFrom_trans (m1 m2 m3 : PluginManagerV2) :
  grownFrom m1 m2 -> grownFrom m2 m3 -> grownFrom m1 m3.
Proof.
  intros [H12 R12] [H23 R23]. split; [auto | congruence].
Qed.

Lemma installEach_success (loadedPlugins : list PluginV2) :
  forall (m m' : PluginManagerV2) (started : list (string * StartAction)),
  pluginsMu m = freeMutex ->
  installEach PluginInitializer_Initialize loadedPlugins m = Ret (None, started) m' ->
  pluginsMu m' = freeMutex
  /\ grownFrom m m'
  /\ forall p, In p loadedPlugins ->
       plugins m' !! ID (PluginInitializer_Initialize p).1
       = Some (PluginInitializer_Initialize p).1.
Proof.
  induction loadedPlugins as [|p rest IH]; intros m m' started Hfree Hrun.
  - cbn in Hrun. injection Hrun as _ <-.
    split; [exact Hfree|]. split; [apply grownFrom_refl | intros p []].
  - cbn [installEach] in Hrun.
    destruct (PluginInitializer_Initialize p) as [p' [e|]] eqn:Hinit;
      [discriminate Hrun|].
    unfold bind at 1 in Hrun. rewrite registerAndStart_free in Hrun by assumption.
    destruct (plugins m !! ID p') as [q|] eqn:Hq; [discriminate Hrun|].
    destruct (IsDecommissioned p') eqn:Hd; [discriminate Hrun|].
    cbn [fst snd] in Hrun. unfold bind at 1 in Hrun.
    set (m1 := set_plugins (<[ID p' := p']> (plugins m)) m) in *.
    destruct (installEach PluginInitializer_Initialize rest m1)
      as [[[e|] others] m2|m2] eqn:Hrest; cbn in Hrun; try discriminate Hrun.
    injection Hrun as _ <-.
    destruct (IH m1 m2 others Hfree Hrest) as (Hfree2 & Hgrown & Hreg).
    assert (Hstep : grownFrom m m1).
    { split; [|reflexivity]. intros id q Hid. cbn.
      rewrite lookup_insert_ne; [exact Hid | congruence]. }
    split; [exact Hfree2|]. split; [eapply grownFrom_trans; eassumption|].
    intros p0 [<- | Hin]; [|apply Hreg; exact Hin].
    rewrite Hinit. cbn. apply Hgrown. cbn. apply lookup_insert_eq.
Qed.

(** X12. When [installPlugins] returns nil, the directory exists, the
    finder and the loader have answered without error, and every plugin
    that [filterOutDuplicates] kept is, once initialized, in the registry
    map under its id; the mutex is free again. *)
Theorem installPlugins_registers_kept (path : string) (m m' : PluginManagerV2)
  (started : list (string * StartAction)) :
  pluginsMu m = freeMutex ->
  installPlugins fs_Exists PluginFinder_Find PluginLoader_LoadAll
                 PluginInitializer_Initialize path m = Ret (None, started) m' ->
  exists pluginJSONPaths loadedPlugins kept,
    fs_Exists path = (true, None)
    /\ PluginFinder_Find path = (pluginJSONPaths, None)
    /\ PluginLoader_LoadAll pluginJSONPaths = (loadedPlugins, None)
    /\ filterOutDuplicates loadedPlugins m = Ret kept m
    /\ pluginsMu m' = freeMutex
    /\ forall p, In p kept ->
         plugins m' !! ID (PluginInitializer_Initialize p).1
         = Some (PluginInitializer_Initialize p).1.
Proof.
  intros Hfree Hrun. unfold installPlugins in Hrun.
  destruct (fs_Exists path) as [[|] [e|]]; try discriminate Hrun.
  cbn [negb] in Hrun.
  destruct (PluginFinder_Find path) as [paths [e|]]; [discriminate Hrun|].
  destruct (PluginLoader_LoadAll paths) as [loaded [e|]] eqn:Hload;
    [discriminate Hrun|].
  assert (Hw : writer (pluginsMu m) = false) by (rewrite Hfree; reflexivity).
  destruct (filterOutDuplicates_loop_spec loaded ∅ [] m Hw) as (kept & Hkept & _).
  change (filterOutDuplicates_loop loaded ∅ [] m) with (filterOutDuplicates loaded m) in Hkept.
  unfold bind in Hrun. rewrite Hkept in Hrun.
  destruct (installEach_success kept m m' started Hfree Hrun) as (Hfree' & _ & Hreg).
  exists paths, loaded, kept. repeat split; assumption.
Qed.

(** X13. [Install] of an id that a lookup hands out: a plugin that is not
    external gives [ErrInstallCorePlugin]; an external plugin whose
    version is the requested one gives the duplicate-plugin error naming
    its directory.  Either way the manager is left as it was. *)
Theorem Install_rejects_installed (pluginID version : string)
  (m : PluginManagerV2) (p : PluginV2) :
  writer (pluginsMu m) = false ->
  dispatchable (plugins m) pluginID = Some p ->
  (IsExternalPlugin p = false ->
   Install fs_Exists PluginFinder_Find PluginLoader_LoadAll
           PluginInitializer_Initialize Info_Version pluginInstaller_GetUpdateInfo
           pluginInstaller_Install grafanaComURL filepath_Rel pluginID version m
   = Ret (Some (PlainError ErrInstallCorePlugin)) m)
  /\ (IsExternalPlugin p = true -> Info_Version p = version ->
      Install fs_Exists PluginFinder_Find PluginLoader_LoadAll
              PluginInitializer_Initialize Info_Version pluginInstaller_GetUpdateInfo
              pluginInstaller_Install grafanaComURL filepath_Rel pluginID version m
      = Ret (Some (DuplicatePluginError pluginID (PluginDir p))) m).
Proof.
  intros Hw Hp. split.
  - intros Hext. unfold Install, bind at 1. rewrite Plugin_readable by assumption.
    rewrite Hp, Hext. reflexivity.
  - intros Hext Hver. unfold Install, bind at 1. rewrite Plugin_readable by assumption.
    rewrite Hp, Hext. cbn [negb]. rewrite bool_decide_eq_true_2 by exact Hver.
    reflexivity.
Qed.

(** X14. [Install] never returns nil for an id that a lookup hands out:
    it returns an error and leaves the manager as it was, or it blocks
    with the registry map and the removed directories as they were. *)
Theorem Install_never_upgrades (pluginID version : string)
  (m : PluginManagerV2) (p : PluginV2) :
  dispatchable (plugins m) pluginID = Some p ->
  match Install fs_Exists PluginFinder_Find PluginLoader_LoadAll
                PluginInitializer_Initialize Info_Version pluginInstaller_GetUpdateInfo
                pluginInstaller_Install grafanaComURL filepath_Rel pluginID version m with
  | Ret r m' => r <> None /\ m' = m
  | Blocked m' => plugins m' = plugins m /\ removedDirs m' = removedDirs m
  end.
Proof.
  intros Hp. destruct (writer (pluginsMu m)) eqn:Hw.
  - unfold Install, bind at 1. rewrite Plugin_under_writer by assumption.
    split; reflexivity.
  - unfold Install, bind at 1. rewrite Plugin_readable by assumption. rewrite Hp.
    destruct (IsExternalPlugin p); cbn [negb]; [|split; [discriminate | reflexivity]].
    case_bool_decide; [split; [discriminate | reflexivity]|].
    destruct (pluginInstaller_GetUpdateInfo pluginID version grafanaComURL)
      as [zip [e|]]; [split; [discriminate | reflexivity]|].
    unfold bind at 1, bind at 1.
    pose proof (Uninstall_cases filepath_Rel (ID p) m) as Hun.
    destruct (Uninstall filepath_Rel (ID p) m) as [[e|] m1|m1].
    + destruct Hun as [_ ->]. split; [discriminate | reflexivity].
    + destruct Hun as [Hun _]. contradiction.
    + exact Hun.
Qed.

End InstallationProperties.

(** ** What the dispatcher hands back *)

Lemma errors_Is_refl (e : error) : errors_Is e e = true.
Proof. destruct e; cbn; rewrite decide_True by reflexivity; reflexivity. Qed.

Lemma errors_Is_Wrapped (msg : string) (e target : error) :
  target <> Wrapped msg e ->
  errors_Is (Wrapped msg e) target = errors_Is e target.
Proof.
  intros Hne. cbn [errors_Is]. rewrite decide_False by congruence. reflexivity.
Qed.

Lemma errors_Is_cause (msg : string) (e : error) :
  errors_Is (Wrapped msg e) e = true.
Proof.
  cbn [errors_Is]. destruct (decide (Wrapped msg e = e)); [reflexivity|].
  apply errors_Is_refl.
Qed.

Lemma isSentinel_Wrapped (msg : string) (e : error) :
  isSentinel (Wrapped msg e) = isSentinel e.
Proof.
  unfold isSentinel. rewrite !errors_Is_Wrapped by discriminate. reflexivity.
Qed.

(** X15. The three dispatch operations leave the manager as it was, and
    an error never comes with a result: whatever the plugin handed back
    beside its error is dropped. *)
Theorem dispatch_reads_only (m : PluginManagerV2) (req : QueryDataRequest)
  (pluginID : string) (pluginContext : PluginContext) :
  pluginsMu m = freeMutex ->
  (exists resp err, QueryData req m = Ret (resp, err) m
                    /\ (err <> None -> resp = None))
  /\ (exists resp err, CollectMetrics pluginID m = Ret (resp, err) m
                       /\ (err <> None -> resp = None))
  /\ (exists resp err, CheckHealth pluginContext m = Ret (resp, err) m
                       /\ (err <> None -> resp = None)).
Proof.
  intros Hfree. split; [|split].
  - rewrite QueryData_free by assumption.
    destruct (dispatchable _ _) as [p|];
      [|eexists _, _; split; [reflexivity | intros H; contradiction]].
    destruct (client_QueryData p req) as [resp [e|]];
      [destruct (isSentinel e)|];
      eexists _, _; (split; [reflexivity|]); intros H; try reflexivity; contradiction.
  - rewrite CollectMetrics_free by assumption.
    destruct (dispatchable _ _) as [p|];
      [|eexists _, _; split; [reflexivity | reflexivity]].
    destruct (client_CollectMetrics p) as [resp [e|]];
      eexists _, _; (split; [reflexivity|]); intros H; try reflexivity; contradiction.
  - destruct (Validate m (dataSourceURL pluginContext) None) as [denial|] eqn:Hval.
    + rewrite (CheckHealth_denied _ _ _ Hval).
      eexists _, _; split; [reflexivity | intros H; contradiction].
    + rewrite CheckHealth_allowed by assumption.
      destruct (dispatchable _ _) as [p|];
        [|eexists _, _; split; [reflexivity | reflexivity]].
      destruct (client_CheckHealth p pluginContext) as [resp [e|]];
        [destruct (isSentinel e)|];
        eexists _, _; (split; [reflexivity|]); intros H; try reflexivity; contradiction.
Qed.

(** X16. The error [QueryData] returns for a failed invocation is
    recognised as [ErrMethodNotImplemented] or [ErrPluginUnavailable]
    exactly when the plugin's error is, and the plugin's error stays
    reachable from it through [errors.Is].  The error [CheckHealth]
    returns is recognised as a sentinel exactly when the plugin's error
    is, and as [ErrHealthCheckFailed] when it is not. *)
Theorem dispatch_error_classification (m : PluginManagerV2) (p : PluginV2)
  (cause : error) :
  pluginsMu m = freeMutex ->
  (forall req resp,
     dispatchable (plugins m) (PluginID (req_PluginContext req)) = Some p ->
     client_QueryData p req = (resp, Some cause) ->
     exists e, QueryData req m = Ret (None, Some e) m
               /\ errors_Is e ErrMethodNotImplemented
                  = errors_Is cause ErrMethodNotImplemented
               /\ errors_Is e ErrPluginUnavailable = errors_Is cause ErrPluginUnavailable
               /\ errors_Is e cause = true)
  /\ (forall pluginContext resp,
        Validate m (dataSourceURL pluginContext) None = None ->
        dispatchable (plugins m) (PluginID pluginContext) = Some p ->
        client_CheckHealth p pluginContext = (resp, Some cause) ->
        exists e, CheckHealth pluginContext m = Ret (None, Some e) m
                  /\ isSentinel e = isSentinel cause
                  /\ (isSentinel cause = false -> errors_Is e ErrHealthCheckFailed = true)).
Proof.
  intros Hfree. split.
  - intros req resp Hp Hcall. rewrite QueryData_free by assumption.
    rewrite Hp, Hcall. destruct (isSentinel cause) eqn:Hs.
    + exists cause. repeat split. apply errors_Is_refl.
    + exists (Wrapped "failed to query data" cause).
      split; [reflexivity|].
      rewrite !errors_Is_Wrapped by discriminate.
      repeat split. apply errors_Is_cause.
  - intros pluginContext resp Hval Hp Hcall.
    rewrite CheckHealth_allowed by assumption.
    rewrite Hp, Hcall. destruct (isSentinel cause) eqn:Hs.
    + exists cause. repeat split; [exact Hs | discriminate].
    + eexists. split; [reflexivity|]. split; [reflexivity|]. reflexivity.
Qed.

(** X17. [handleCallResourceError] answers 503 for an error that is
    [ErrPluginUnavailable], 404 for one that is [ErrMethodNotImplemented]
    and 500 for every other, [ErrPluginNotRegistered] included; an error
    wrapped by [errutil.Wrap] gets the status and message of the error
    inside; the error handed on is always the one received. *)
Theorem handleCallResourceError_status (err : error) :
  (handleCallResourceError err).2 = err
  /\ ((handleCallResourceError err).1.1 = 503%Z
      <-> errors_Is err ErrPluginUnavailable = true)
  /\ ((handleCallResourceError err).1.1 = 404%Z
      <-> errors_Is err ErrPluginUnavailable = false
          /\ errors_Is err ErrMethodNotImplemented = true)
  /\ ((handleCallResourceError err).1.1 = 500%Z
      <-> errors_Is err ErrPluginUnavailable = false
          /\ errors_Is err ErrMethodNotImplemented = false)
  /\ (forall message,
        (handleCallResourceError (errutil_Wrap message err)).1
        = (handleCallResourceError err).1)
  /\ handleCallResourceError ErrPluginNotRegistered
     = (500%Z, "Failed to call resource", ErrPluginNotRegistered).
Proof.
  split; [|split; [|split; [|split; [|split]]]].
  - unfold handleCallResourceError.
    destruct (errors_Is err ErrPluginUnavailable),
             (errors_Is err ErrMethodNotImplemented); reflexivity.
  - unfold handleCallResourceError.
    destruct (errors_Is err ErrPluginUnavailable),
             (errors_Is err ErrMethodNotImplemented); cbn; split; congruence.
  - unfold handleCallResourceError.
    destruct (errors_Is err ErrPluginUnavailable),
             (errors_Is err ErrMethodNotImplemented); cbn;
      (split;
       [ intros H; first [discriminate H | split; reflexivity]
       | intros [H1 H2]; first [discriminate H1 | discriminate H2 | reflexivity] ]).
  - unfold handleCallResourceError.
    destruct (errors_Is err ErrPluginUnavailable),
             (errors_Is err ErrMethodNotImplemented); cbn;
      (split;
       [ intros H; first [discriminate H | split; reflexivity]
       | intros [H1 H2]; first [discriminate H1 | discriminate H2 | reflexivity] ]).
  - intros message. unfold handleCallResourceError, errutil_Wrap.
    rewrite !errors_Is_Wrapped by discriminate.
    destruct (errors_Is err ErrPluginUnavailable),
             (errors_Is err ErrMethodNotImplemented); reflexivity.
  - reflexivity.
Qed.

(** ** When the supervision loop returns *)

Lemma restartKilledProcess_result_tick (p : PluginV2) (rest : list LoopEvent) :
  IsDecommissioned p = false ->
  (restartKilledProcess (ticker_C p :: rest)).2 = (restartKilledProcess rest).2
  /\ length (List.filter isStart (restartKilledProcess (ticker_C p :: rest)).1)
     = (if Exited p then 1 else 0)
       + length (List.filter isStart (restartKilledProcess rest).1).
Proof.
  intros Hd. cbn. rewrite Hd.
  destruct (Exited p); cbn; [|split; reflexivity].
  destruct (restartKilledProcess rest) as [calls result].
  destruct (Start p); cbn; split; reflexivity.
Qed.

(** X18. The supervision loop returns exactly when a context-done event
    or a tick with the plugin decommissioned is among the events; it
    returns an error only if the context handed it one that is not plain
    cancellation; and it never calls [Start] more often than there were
    ticks at which the process had exited. *)
Theorem restartKilledProcess_returns_iff (events : list LoopEvent) :
  ((restartKilledProcess events).2 <> None
   <-> exists ev, In ev events /\ terminal ev = true)
  /\ (forall e, (restartKilledProcess events).2 = Some (Some e) ->
        In (ctx_Done (Some e)) events /\ errors_Is e context_Canceled = false)
  /\ length (List.filter isStart (restartKilledProcess events).1)
     <= length (List.filter detectedExit events).
Proof.
  induction events as [|ev events (IHret & IHerr & IHstarts)].
  - cbn. split; [|split; [discriminate | lia]].
    split; [intros H; contradiction | intros (ev & [] & _)].
  - destruct ev as [err|p].
    + split; [|split].
      * split; [intros _; exists (ctx_Done err); split; [left|]; reflexivity|].
        intros _. cbn. destruct err as [e|]; [destruct (negb _)|]; discriminate.
      * intros e. cbn. destruct err as [e'|]; [|discriminate].
        destruct (errors_Is e' context_Canceled) eqn:Hc; cbn; [discriminate|].
        intros [= <-]. split; [left; reflexivity | exact Hc].
      * cbn. destruct err as [e|]; [destruct (negb _)|]; cbn; lia.
    + destruct (IsDecommissioned p) eqn:Hd.
      * split; [|split].
        -- split; [intros _; exists (ticker_C p); split; [left; reflexivity | exact Hd]|].
           intros _. cbn. rewrite Hd. discriminate.
        -- intros e. cbn. rewrite Hd. discriminate.
        -- cbn. rewrite Hd. cbn. lia.
      * destruct (restartKilledProcess_result_tick p events Hd) as [Hres Hlen].
        rewrite Hres, Hlen. split; [|split].
        -- rewrite IHret. split.
           ++ intros (ev & Hin & Hev). exists ev. split; [right; exact Hin | exact Hev].
           ++ intros (ev & [<- | Hin] & Hev); [cbn in Hev; congruence|].
              exists ev. split; assumption.
        -- intros e He. destruct (IHerr e He) as [Hin Hc].
           split; [right; exact Hin | exact Hc].
        -- cbn [List.filter detectedExit]. destruct (Exited p); cbn [length]; lia.
Qed.

(** ** More on the drain loop *)

(** X19. What the writer is asked to do while a stream is drained up to
    its end or its first error: the status once, before anything else,
    if the first chunk carries headers, and not at all otherwise; then,
    for every chunk in order, its body and, on a writer that can flush,
    a flush. *)
Theorem flushStream_writer_calls (b : Bridge) (chunks : list CallResourceResponse)
  (e : error) (rest : list Received) :
  incoming (stream b) = map Chunk chunks ++ Failed e :: rest ->
  w_calls (w (flushStream b).2)
  = w_calls (w b) ++ statusCalls chunks
      ++ flat_map (bodyCalls (w_Flusher (w b))) chunks.
Proof.
  intros Hin. destruct (flushStream_returns b chunks e rest Hin) as (result & _ & ->).
  apply processChunks_calls.
Qed.

Lemma flushStream_loop_blocks (pending : list Received) :
  forall (n : nat) (isClosed : bool) (wr : ResponseWriter) (log : list LogEntry),
  (flushStream_loop n pending isClosed wr log).1 = None
  <-> isClosed = false /\ forall r, In r pending -> exists resp, r = Chunk resp.
Proof.
  induction pending as [|[resp|err] rest IH]; intros n isClosed wr log.
  - cbn. destruct isClosed.
    + destruct (onRecvError n io_EOF _) as [e b']. cbn.
      split; [discriminate | intros [H _]; discriminate].
    + cbn. split; [intros _; split; [reflexivity | intros r []] | reflexivity].
  - cbn [flushStream_loop]. destruct (processChunk n resp wr log) as [wr' log'].
    rewrite IH. split; intros [Hc Hall]; (split; [exact Hc|]).
    + intros r [<- | Hin]; [eauto | apply Hall; exact Hin].
    + intros r Hin. apply Hall. right. exact Hin.
  - cbn [flushStream_loop]. destruct (onRecvError n err _) as [e b']. cbn.
    split; [discriminate|]. intros [_ Hall].
    destruct (Hall (Failed err)) as [resp Hresp]; [left; reflexivity | discriminate].
Qed.

(** X20. The drain loop waits in [Recv] for ever exactly when the stream
    is not closed and delivers nothing but chunks; a closed stream, an
    error or an end of stream makes it return. *)
Theorem flushStream_blocks_iff (b : Bridge) :
  (flushStream b).1 = None
  <-> closed (stream b) = false
      /\ forall r, In r (incoming (stream b)) -> exists resp, r = Chunk resp.
Proof. apply flushStream_loop_blocks. Qed.

Lemma processChunk_log_grows (n : nat) (resp : CallResourceResponse)
  (wr : ResponseWriter) (log : list LogEntry) :
  exists more, (processChunk n resp wr log).2 = log ++ more
               /\ Forall (fun entry => msg entry = "Failed to write resource response") more.
Proof.
  unfold processChunk, w_Write.
  destruct n, (resp_Headers resp); cbn;
    destruct (w_writeErrs _) as [|[e|] errs]; cbn;
    first [ exists []; rewrite app_nil_r; split; [reflexivity | constructor]
          | eexists [_]; split; [reflexivity | repeat constructor] ].
Qed.

Lemma flushStream_loop_result (pending : list Received) :
  forall (n : nat) (isClosed : bool) (wr wr' : ResponseWriter) (log log' : list LogEntry),
  (flushStream_loop n pending isClosed wr log).1
  = (flushStream_loop n pending isClosed wr' log').1
  /\ exists more, pluginLog (flushStream_loop n pending isClosed wr log).2 = log ++ more.
Proof.
  induction pending as [|[resp|err] rest IH]; intros n isClosed wr wr' log log'.
  - cbn. unfold onRecvError. cbn.
    destruct isClosed, (n =? 0)%nat; cbn;
      (split; [reflexivity | exists []; rewrite app_nil_r; reflexivity]).
  - cbn [flushStream_loop].
    destruct (processChunk_log_grows n resp wr log) as (more & Hmore & _).
    destruct (processChunk n resp wr log) as [wr1 log1].
    destruct (processChunk n resp wr' log') as [wr2 log2]. cbn in Hmore. subst log1.
    destruct (IH (S n) isClosed wr1 wr2 (log ++ more) log2) as [Hres [more' Hlog]].
    split; [exact Hres|]. exists (more ++ more'). rewrite Hlog, app_assoc. reflexivity.
  - cbn. unfold onRecvError, Close. cbn.
    destruct (errors_Is err io_EOF), (n =? 0)%nat, isClosed; cbn;
      (split; [reflexivity|]);
      first [ exists []; rewrite app_nil_r; reflexivity | eexists; reflexivity ].
Qed.

(** X21. What the drain loop returns depends on the stream alone, not on
    the writer or the log it is given: a [Write] that fails does not
    change the result.  The plugin log is only added to. *)
Theorem flushStream_result_of_stream (b b' : Bridge) :
  stream b = stream b' ->
  (flushStream b).1 = (flushStream b').1
  /\ exists more, pluginLog (flushStream b).2 = pluginLog b ++ more.
Proof.
  intros Hs. unfold flushStream. rewrite <- Hs.
  apply flushStream_loop_result.
Qed.

(** ** Headers of the first chunk *)

Lemma headerValues_Add (k v key : string) (h : Header) :
  headerValues (Header_Add k v h) key
  = headerValues h key
      ++ (if bool_decide (CanonicalMIMEHeaderKey k = key) then [v] else []).
Proof.
  unfold headerValues, Header_Add. case_bool_decide as Hk.
  - subst key. rewrite lookup_insert_eq. reflexivity.
  - rewrite lookup_insert_ne by exact Hk. rewrite app_nil_r. reflexivity.
Qed.

Lemma headerValues_Add_all (k key : string) (vs : list string) (h : Header) :
  headerValues (foldl (fun h v => Header_Add k v h) h vs) key
  = headerValues h key
      ++ (if bool_decide (CanonicalMIMEHeaderKey k = key) then vs else []).
Proof.
  revert h. induction vs as [|v vs IH]; intros h.
  - cbn. destruct (bool_decide _); rewrite app_nil_r; reflexivity.
  - cbn [foldl]. rewrite IH, headerValues_Add.
    case_bool_decide; rewrite <- app_assoc; reflexivity.
Qed.

Lemma copyHeaders_keeps (headers : list (string * list string)) :
  forall (h : Header) (key : string),
  exists more, headerValues (copyHeaders headers h) key = headerValues h key ++ more.
Proof.
  induction headers as [|[k vs] headers IH]; intros h key.
  - exists []. rewrite app_nil_r. reflexivity.
  - rewrite copyHeaders_cons. case_bool_decide; [apply IH|].
    destruct (IH (foldl (fun h v => Header_Add k v h) h vs) key) as [more Hmore].
    rewrite Hmore, headerValues_Add_all, <- app_assoc. eauto.
Qed.

Lemma copyHeaders_forwards (headers : list (string * list string)) :
  forall (h : Header) (k v : string) (vs : list string),
  In (k, vs) headers -> k <> "Set-Cookie" -> In v vs ->
  In v (headerValues (copyHeaders headers h) (CanonicalMIMEHeaderKey k)).
Proof.
  induction headers as [|[k' vs'] headers IH]; intros h k v vs Hin Hk Hv; [destruct Hin|].
  rewrite copyHeaders_cons. destruct Hin as [[= -> ->] | Hin].
  - rewrite bool_decide_eq_false_2 by exact Hk.
    destruct (copyHeaders_keeps headers (foldl (fun h v => Header_Add k v h) h vs)
                                (CanonicalMIMEHeaderKey k)) as [more ->].
    rewrite headerValues_Add_all, bool_decide_eq_true_2 by reflexivity.
    apply in_or_app. left. apply in_or_app. right. exact Hv.
  - eapply IH; eassumption.
Qed.

(** X22. Writing the head of a response: every value the plugin sent
    under a key other than [Set-Cookie] is among the values the writer
    holds under the canonical form of that key; a response without a
    [Content-Type] key gets [application/json]; and no value the writer
    already held is removed. *)
Theorem writeHead_forwards_headers (resp : CallResourceResponse) (headers : Header)
  (wr : ResponseWriter) :
  (forall k vs v, headers !! k = Some vs -> k <> "Set-Cookie" -> In v vs ->
     In v (headerValues (w_Header (writeHead resp headers wr))
                        (CanonicalMIMEHeaderKey k)))
  /\ (headers !! "Content-Type" = None ->
      In "application/json"
         (headerValues (w_Header (writeHead resp headers wr)) "Content-Type"))
  /\ (forall key, exists more,
        headerValues (w_Header (writeHead resp headers wr)) key
        = headerValues (w_Header wr) key ++ more).
Proof.
  unfold writeHead. cbn. split; [|split].
  - intros k vs v Hk Hne Hv. apply (copyHeaders_forwards _ _ k v vs); try assumption.
    apply list_elem_of_In, elem_of_map_to_list.
    destruct (headers !! "Content-Type") eqn:Hct; [exact Hk|].
    rewrite lookup_insert_ne; [exact Hk | congruence].
  - intros Hct. rewrite Hct.
    change "Content-Type" with (CanonicalMIMEHeaderKey "Content-Type") at 2.
    apply (copyHeaders_forwards _ _ "Content-Type" _ ["application/json"]).
    + apply list_elem_of_In, elem_of_map_to_list. apply lookup_insert_eq.
    + discriminate.
    + left. reflexivity.
  - intros key. apply copyHeaders_keeps.
Qed.

(** X23. Cookies sent under the key [Set-Cookie] are not forwarded: when
    no other key of the plugin's headers reads [Set-Cookie] in canonical
    form, writing the head leaves the [Set-Cookie] values of the writer
    as they were. *)
Theorem writeHead_strips_cookie (resp : CallResourceResponse) (headers : Header)
  (wr : ResponseWriter) :
  (forall k, is_Some (headers !! k) -> k <> "Set-Cookie" ->
             CanonicalMIMEHeaderKey k <> "Set-Cookie") ->
  w_Header (writeHead resp headers wr) !! "Set-Cookie" = w_Header wr !! "Set-Cookie".
Proof.
  intros Hkeys. unfold writeHead. cbn.
  apply copyHeaders_strips_canonical.
  intros k vs Hin Hk. apply list_elem_of_In, list_elem_of_In, elem_of_map_to_list in Hin.
  destruct (decide (k = "Content-Type")) as [-> | Hct]; [vm_compute; discriminate|].
  apply Hkeys; [|exact Hk].
  destruct (headers !! "Content-Type"); [eauto|].
  rewrite lookup_insert_ne in Hin by congruence. eauto.
Qed.

(** ** Shutdown *)



(** ** Closing the stream *)

Lemma isFailure_Failed (r : Received) :
  isFailure r = true -> exists e, r = Failed e.
Proof. destruct r as [resp|e]; [discriminate | eauto]. Qed.

Lemma filter_isFailure_chunks (l : list Received) :
  (forall r, In r l -> exists resp, r = Chunk resp) ->
  List.filter isFailure l = [].
Proof.
  induction l as [|r l IH]; intros Hall; [reflexivity|].
  destruct (Hall r (or_introl eq_refl)) as [resp ->]. cbn.
  apply IH. intros r Hin. apply Hall. right. exact Hin.
Qed.

(** X25. Closing an open stream succeeds and closing it again fails with
    "cannot close a closed stream", changing nothing.  Once the stream
    is closed no chunk is delivered any more, not even one that was
    pending: [Recv] does not block and hands over an error, and it is
    end-of-stream when only chunks were pending; a drain loop started
    then returns the "received empty resource response" error and
    writes nothing.  On an open stream with nothing pending [Recv]
    blocks. *)
Theorem Close_then_Recv (s : callResourceResponseStream) :
  closed s = false ->
  (Close s).1 = None
  /\ closed (Close s).2 = true
  /\ Close (Close s).2 = (Some (errors_New "cannot close a closed stream"), (Close s).2)
  /\ (forall r, In r (incoming (Close s).2) -> exists e, r = Failed e)
  /\ (exists e s',
        Recv (Close s).2 = Some (Failed e, s')
        /\ closed s' = true
        /\ forall r, In r (incoming s') -> exists e', r = Failed e')
  /\ ((forall r, In r (incoming s) -> exists resp, r = Chunk resp) ->
      Recv (Close s).2 = Some (Failed io_EOF, (Close s).2)
      /\ forall wr log,
           flushStream {| stream := (Close s).2; w := wr; pluginLog := log |}
           = (Some (Some (errors_New "received empty resource response")),
              {| stream := (Close s).2; w := wr; pluginLog := log |}))
  /\ (incoming s = [] -> Recv s = None).
Proof.
  intros Hopen. unfold Close. rewrite Hopen. cbn.
  assert (Hfail : forall r, In r (List.filter isFailure (incoming s)) ->
                            exists e, r = Failed e).
  { intros r Hin. apply filter_In in Hin as [_ Hr]. apply isFailure_Failed. exact Hr. }
  split; [reflexivity|]. split; [reflexivity|]. split; [reflexivity|].
  split; [exact Hfail|]. split; [|split].
  - unfold Recv. cbn.
    destruct (List.filter isFailure (incoming s)) as [|r rest] eqn:Hf.
    + exists io_EOF. eexists. split; [reflexivity|]. split; [reflexivity|].
      intros r [].
    + destruct (Hfail r (or_introl eq_refl)) as [e ->].
      exists e. eexists. split; [reflexivity|]. split; [reflexivity|].
      cbn. intros r Hin. apply Hfail. right. exact Hin.
  - intros Hchunks. rewrite (filter_isFailure_chunks _ Hchunks).
    split; [reflexivity|]. intros wr log. reflexivity.
  - intros Hnone. unfold Recv. rewrite Hnone, Hopen. reflexivity.
Qed.

(** * The further properties at concrete inputs *)

Lemma Register_then_Plugin_witness :
  exists m', Register mimir exampleManager = Ret None m'
             /\ Plugin "mimir" m' = Ret (Some mimir) m'
             /\ Plugin "loki" m' = Ret (Some loki) m'.
Proof.
  destruct (Register_then_Plugin exampleManager mimir eq_refl
              ltac:(vm_compute; reflexivity)) as (m' & Hreg & _ & Hsame & Hother).
  exists m'. split; [exact Hreg|]. split; [exact Hsame|].
  apply (Hother "loki"). discriminate.
Defined.

Lemma unregister_round_trip_witness :
  unregister mimir exampleManager = Ret None exampleManager
  /\ exists m1, Register mimir exampleManager = Ret None m1
                /\ unregister mimir m1 = Ret None exampleManager.
Proof.
  apply (proj2 (unregister_round_trip exampleManager mimir eq_refl)).
  vm_compute. reflexivity.
Defined.

Lemma IsSupported_IsRegistered_witness :
  IsSupported "retired" exampleManager = Ret true exampleManager
  /\ IsRegistered "retired" exampleManager = Ret false exampleManager.
Proof.
  destruct (IsSupported_IsRegistered exampleManager "retired" eq_refl)
    as (supported & registered & Hs & Hr & _ & _ & _ & Hdecom).
  destruct (Hdecom retired ltac:(vm_compute; reflexivity) eq_refl) as [-> ->].
  split; assumption.
Defined.

Lemma PluginByType_refines_Plugin_witness :
  exists r,
    PluginByType (fun _ => "datasource") "loki" "panel" exampleManager
    = Ret r exampleManager
    /\ forall p, r = Some p <->
                 Plugin "loki" exampleManager = Ret (Some p) exampleManager
                 /\ "datasource" = "panel".
Proof.
  apply (PluginByType_refines_Plugin (fun _ => "datasource") exampleManager
           "loki" "panel").
  reflexivity.
Defined.

Lemma filterOutDuplicates_spec_witness :
  exists kept,
    filterOutDuplicates (exampleLoadAll []).1 exampleManager = Ret kept exampleManager
    /\ sublist kept (exampleLoadAll []).1
    /\ NoDup (map ID kept)
    /\ (forall p, In p kept ->
          dispatchable (plugins exampleManager) (ID p) = None
          /\ corePluginJSONPaths !! ID p = None)
    /\ (forall p, In p (exampleLoadAll []).1 ->
          is_Some (dispatchable (plugins exampleManager) (ID p))
          \/ is_Some (corePluginJSONPaths !! ID p)
          \/ exists q, In q kept /\ ID q = ID p).
Proof.
  apply (filterOutDuplicates_spec (exampleLoadAll []).1 exampleManager). reflexivity.
Defined.

Lemma registerAndStart_outcomes_witness :
  registerAndStart loki exampleManager
  = Ret (Some (errors_New "plugin loki already registered"), []) exampleManager
  /\ (exists m', registerAndStart stale exampleManager
                 = Ret (Some (errors_New "plugin stale is not registered"), []) m'
                 /\ plugins m' = <["stale" := stale]> (plugins exampleManager))
  /\ (exists m', registerAndStart mimir exampleManager
                 = Ret (None, [OnPlugin CallStart; GoRestartKilledProcess]) m').
Proof.
  split; [|split].
  - apply (proj1 (registerAndStart_outcomes exampleManager loki eq_refl) loki).
    vm_compute. reflexivity.
  - destruct (proj2 (registerAndStart_outcomes exampleManager stale eq_refl)
                    ltac:(vm_compute; reflexivity))
      as (r & m' & Hrun & Hps & _ & Hdecom & _).
    exists m'. rewrite Hrun, (Hdecom eq_refl). split; [reflexivity | exact Hps].
  - destruct (proj2 (registerAndStart_outcomes exampleManager mimir eq_refl)
                    ltac:(vm_compute; reflexivity))
      as (r & m' & Hrun & _ & _ & _ & Hlive).
    exists m'. rewrite Hrun, (Hlive eq_refl). reflexivity.
Defined.

Lemma installPlugins_registers_kept_witness :
  exists pluginJSONPaths loadedPlugins kept,
    exampleExists "/var/lib/grafana/plugins" = (true, None)
    /\ exampleFind "/var/lib/grafana/plugins" = (pluginJSONPaths, None)
    /\ exampleLoadAll pluginJSONPaths = (loadedPlugins, None)
    /\ filterOutDuplicates loadedPlugins exampleManager = Ret kept exampleManager
    /\ pluginsMu (set_plugins (<["unmanaged" := unmanaged]>
                                 (<["mimir" := mimir]> (plugins exampleManager)))
                              exampleManager) = freeMutex
    /\ forall p, In p kept ->
         plugins (set_plugins (<["unmanaged" := unmanaged]>
                                 (<["mimir" := mimir]> (plugins exampleManager)))
                              exampleManager) !! ID (exampleInitialize p).1
         = Some (exampleInitialize p).1.
Proof.
  apply (installPlugins_registers_kept exampleExists exampleFind exampleLoadAll
           exampleInitialize "/var/lib/grafana/plugins" exampleManager
           (set_plugins (<["unmanaged" := unmanaged]>
                           (<["mimir" := mimir]> (plugins exampleManager)))
                        exampleManager)
           [("mimir", OnPlugin CallStart); ("mimir", GoRestartKilledProcess)]).
  - reflexivity.
  - vm_compute. reflexivity.
Defined.

Lemma Install_rejects_installed_witness :
  Install exampleExists exampleFind exampleLoadAll exampleInitialize exampleVersion
          (fun _ _ _ => ("", None)) (fun _ _ _ _ _ => None) "https://grafana.com/api/plugins"
          unix_Rel "graphite" "7.5.0" coreManager
  = Ret (Some (PlainError ErrInstallCorePlugin)) coreManager
  /\ Install exampleExists exampleFind exampleLoadAll exampleInitialize exampleVersion
             (fun _ _ _ => ("", None)) (fun _ _ _ _ _ => None) "https://grafana.com/api/plugins"
             unix_Rel "loki" "1.0.0" coreManager
     = Ret (Some (DuplicatePluginError "loki" "/var/lib/grafana/plugins/loki")) coreManager.
Proof.
  split.
  - apply (proj1 (Install_rejects_installed exampleExists exampleFind exampleLoadAll
                    exampleInitialize exampleVersion (fun _ _ _ => ("", None))
                    (fun _ _ _ _ _ => None) "https://grafana.com/api/plugins" unix_Rel
                    "graphite" "7.5.0" coreManager graphite eq_refl
                    ltac:(vm_compute; reflexivity))).
    reflexivity.
  - apply (proj2 (Install_rejects_installed exampleExists exampleFind exampleLoadAll
                    exampleInitialize exampleVersion (fun _ _ _ => ("", None))
                    (fun _ _ _ _ _ => None) "https://grafana.com/api/plugins" unix_Rel
                    "loki" "1.0.0" coreManager loki eq_refl
                    ltac:(vm_compute; reflexivity))); reflexivity.
Defined.

Lemma Install_never_upgrades_witness :
  match Install exampleExists exampleFind exampleLoadAll exampleInitialize exampleVersion
                (fun _ _ _ => ("", None)) (fun _ _ _ _ _ => None)
                "https://grafana.com/api/plugins" unix_Rel "loki" "2.0.0" coreManager with
  | Ret r m' => r <> None /\ m' = coreManager
  | Blocked m' => plugins m' = plugins coreManager
                  /\ removedDirs m' = removedDirs coreManager
  end.
Proof.
  apply (Install_never_upgrades exampleExists exampleFind exampleLoadAll
           exampleInitialize exampleVersion (fun _ _ _ => ("", None))
           (fun _ _ _ _ _ => None) "https://grafana.com/api/plugins" unix_Rel
           "loki" "2.0.0" coreManager loki).
  vm_compute. reflexivity.
Defined.

Lemma dispatch_reads_only_witness :
  exists resp err,
    CollectMetrics "loki" exampleManager = Ret (resp, err) exampleManager
    /\ (err <> None -> resp = None).
Proof.
  apply (proj1 (proj2 (dispatch_reads_only exampleManager (requestFor "loki") "loki"
                         (contextOf "loki" "http://localhost:3100") eq_refl))).
Defined.

Lemma dispatch_error_classification_witness :
  exists e, QueryData (requestFor "loki") exampleManager = Ret (None, Some e) exampleManager
            /\ errors_Is e ErrMethodNotImplemented = false
            /\ errors_Is e ErrPluginUnavailable = false
            /\ errors_Is e (errors_New "connection refused") = true.
Proof.
  apply (proj1 (dispatch_error_classification exampleManager loki
                  (errors_New "connection refused") eq_refl)
               (requestFor "loki") None).
  - vm_compute. reflexivity.
  - reflexivity.
Defined.

Lemma flushStream_writer_calls_witness :
  w_calls (w (flushStream (bridgeOf [Chunk tracedChunk; Chunk plainChunk; Failed io_EOF])).2)
  = [CallWriteHeader 201; CallWrite "{}"; CallFlush; CallWrite "more"; CallFlush].
Proof.
  apply (flushStream_writer_calls
           (bridgeOf [Chunk tracedChunk; Chunk plainChunk; Failed io_EOF])
           [tracedChunk; plainChunk] io_EOF []).
  reflexivity.
Defined.

Lemma flushStream_result_of_stream_witness :
  (flushStream (bridgeOf [Chunk plainChunk; Failed context_Canceled])).1
  = (flushStream {| stream := {| incoming := [Chunk plainChunk; Failed context_Canceled];
                                 closed := false |};
                    w := {| w_Header := ∅; w_calls := []; w_Flusher := false;
                            w_writeErrs := [Some (errors_New "broken pipe")] |};
                    pluginLog := [] |}).1.
Proof.
  apply (flushStream_result_of_stream
           (bridgeOf [Chunk plainChunk; Failed context_Canceled])
           {| stream := {| incoming := [Chunk plainChunk; Failed context_Canceled];
                           closed := false |};
              w := {| w_Header := ∅; w_calls := []; w_Flusher := false;
                      w_writeErrs := [Some (errors_New "broken pipe")] |};
              pluginLog := [] |}).
  reflexivity.
Defined.

Lemma writeHead_strips_cookie_witness :
  w_Header (writeHead tracedChunk
              (<["Set-Cookie" := ["sid=1"]]> (<["x-trace" := ["abc"]]> ∅))
              exampleWriter) !! "Set-Cookie"
  = None.
Proof.
  apply (writeHead_strips_cookie tracedChunk
           (<["Set-Cookie" := ["sid=1"]]> (<["x-trace" := ["abc"]]> ∅)) exampleWriter).
  intros k [vs Hk] Hne.
  destruct (decide (k = "x-trace")) as [-> | Hx]; [vm_compute; discriminate|].
  rewrite lookup_insert_ne in Hk by congruence.
  rewrite lookup_insert_ne in Hk by congruence.
  rewrite lookup_empty in Hk. discriminate.
Defined.


Lemma Uninstall_guards_witness :
  Uninstall unix_Rel "retired" exampleManager
  = Ret (Some ErrPluginNotInstalled) exampleManager
  /\ Uninstall unix_Rel "graphite" coreManager
     = Ret (Some ErrUninstallCorePlugin) coreManager.
Proof.
  split.
  - apply (proj1 (Uninstall_guards unix_Rel "retired" exampleManager eq_refl)).
    vm_compute. reflexivity.
  - apply (proj2 (Uninstall_guards unix_Rel "graphite" coreManager eq_refl) graphite).
    + vm_compute. reflexivity.
    + reflexivity.
Defined.

Lemma Close_then_Recv_witness :
  Close (Close {| incoming := [Chunk plainChunk]; closed := false |}).2
  = (Some (errors_New "cannot close a closed stream"), {| incoming := []; closed := true |})
  /\ Recv (Close {| incoming := [Chunk plainChunk]; closed := false |}).2
     = Some (Failed io_EOF, {| incoming := []; closed := true |})
  /\ flushStream {| stream := (Close {| incoming := [Chunk plainChunk];
                                        closed := false |}).2;
                    w := exampleWriter; pluginLog := [] |}
     = (Some (Some (errors_New "received empty resource response")),
        {| stream := {| incoming := []; closed := true |};
           w := exampleWriter; pluginLog := [] |}).
Proof.
  destruct (Close_then_Recv {| incoming := [Chunk plainChunk]; closed := false |} eq_refl)
    as (_ & _ & Hagain & _ & _ & Hchunks & _).
  destruct Hchunks as [Hrecv Hdrain].
  { intros r [<- | []]. eauto. }
  split; [exact Hagain|]. split; [exact Hrecv|]. apply Hdrain.
Defined.
